(* ===== verification/_CoqProject ===== *)
-Q . S2P
Prelude.v
JsValue.v
Cart.v
Fetch.v
Hooks.v
Checkout.v
Catalog.v
Router.v
Contact.v
App.v
