(* ===== verification/Prelude.v ===== *)
(** * A verified model of the Pranesta Jewellery storefront front-end

    The repository is a React single-page application ([src/src/App.jsx]
    and the four components of [src/src/components/]).  Its state lives in
    React hooks of the [App] component ([route], [products], [category],
    [cart], [loading], [message]) and of each mounted [ContactForm]
    ([form], [loading], [status]).  Every handler either updates these
    hooks synchronously or is an [async] function that awaits [fetch]
    calls to the backend and updates the hooks when each call settles.

    ** How the development is laid out

    - [Prelude] (this file): the notation scope [js_scope], the hint
      database [storefront], and generic lemmas about the JavaScript
      array methods the code uses ([Array.prototype.findIndex], [filter]
      with an index callback, [reduce]).  Each method is proved equal to
      the stdpp operation it computes ([list_find], [delete], [foldl]).
      The file also holds [forallb] lemmas for the updates the
      components apply to arrays.
    - [JsValue] (Module [Js]): the JSON values the backend returns
      ([jval]) and the JavaScript operations the code applies to them:
      - truthiness and [||];
      - property access [v.k], which throws a [TypeError] on [null] and
        [undefined];
      - [String(v)], as used by template literals and [new Error(v)];
      - strict equality [===];
      - [ToNumber] for [*];
      - [JSON.stringify], with the values it leaves unchanged
        ([wire_stable]) and an induction principle for JSON values
        ([jval_ind']).
    - [Cart] (Module [CartStore]): the cart operations of [App.jsx]
      ([onAdd], lines 40-50; [removeItem], lines 52-54) and the [total]
      of [Cart.jsx] (line 2).  It also holds the cart invariant: ids
      pairwise not [===], every quantity positive.
    - [Fetch]: the requests the program sends and the outcomes of a
      [fetch] followed by [res.json()].  An [async] handler is a [task],
      a tree of synchronous updates ([Act]) and awaits ([Await]).
      [settle] runs a task's synchronous head; [run] runs a whole task
      against a backend when nothing else interleaves.
    - [Hooks]: Module [AppState] holds the six hooks of [App] (lines
      14-19) as a record.  Module [ReactState] holds the [Hooks] class,
      the interface through which handlers update React state.  It has
      one getter and one setter per hook, and [HooksLaws] states their
      laws.
    - [Checkout]: the [checkout] handler (App.jsx 56-94) as a task,
      proved against any lawful [Hooks] instance.  [verdict],
      [expected_verdict] and [apply_verdict] are the contract of spec
      section 4.3: the verdict the three answers determine, applied at
      once.  [checkout_contract] shows that [checkout] refines it.
    - [Catalog]: the following parts of the product catalog:
      - [loadProducts] (lines 21-34) and the query it builds;
      - the category effect's argument (lines 36-38);
      - the [filtered] memo (lines 96-99);
      - the product grid (lines 127-134, 150-157);
      - what a [ProductCard] renders as children.  The last three can
        throw during render.
    - [Router]: the panel each [route] value selects (lines 106-175),
      the targets of [Navbar] (Navbar.jsx 7-16), the "Shop" and
      "Collections" buttons, the catalog title and the cart badge.
    - [Contact] (Module [ContactForm]): the three hooks of a mounted
      [ContactForm], [handleChange] (lines 8-10), [handleSubmit] (lines
      12-32), and the browser checks that gate a submission ([required]
      and [disabled]).
    - [App]: the whole page as a [world].  A world holds:
      - App's hooks;
      - the mounted form and its generation;
      - whether a render has thrown and unmounted the tree;
      - every pending await, tagged with the handler that started it;
      - the log of requests sent.
      [step] handles one event: a click, a keystroke or the settling of
      any pending await with any outcome, in any order.  It runs the
      handlers of the other files through the [Hooks] instance
      [ui_hooks], and then renders ([render_ok], which includes the
      cart panel of [Cart.jsx]).  [reachable] and [reachable_good]
      are rule induction over [step]; [exec] evaluates a list of
      events.

    ** What the theorems show

    - Invariants of every reachable state, proved by rule induction:
      - the cart invariant ([reachable_cart_wf]);
      - "Loading..." is shown only while a catalog request is pending
        ([loading_implies_pending_load]);
      - as long as every catalog answer is a failure or an array of
        renderable products, the page never unmounts
        ([good_answers_never_crash]);
      - the mounted contact form's button is disabled exactly while one
        inquiry of that form instance is pending
        ([form_sending_tracks_inquiry]).
      Each of these uses a per-entry invariant of the pending awaits
      ([task_all], [entry_ok], [entry_form_ok]).  Each invariant
      discharges the obligations of the record [step_closed], one per
      kind of state change a handler makes.  The lemma
      [step_closed_step] does the case analysis on events once, for
      all the invariants.
    - Refinement ([checkout_contract]).  For every backend and every
      lawful [Hooks] instance, a checkout of a non-empty cart leaves
      every hook as [apply_verdict (expected_verdict b c)] would.  The
      cart is emptied with the fixed confirmation exactly when the
      three calls are accepted.  Otherwise the cart is untouched and
      the message is the first failing call's.  The interim messages
      leave no trace.
    - Round trip ([order_body_roundtrip]).  The order body, after
      [JSON.stringify] ([wire]), decodes back to the ordered cart when
      no line holds [undefined].  The decoder, [decode_order], is the
      contract of spec section 6: the backend is not in the repository.
    - Bounds and ordering ([checkout_requests_bounded]).  A checkout
      sends at most three requests, in a chain.  The second is sent
      only after an [ok] answer to the order, and carries that
      answer's [order_id].  The third is sent only after an [ok] answer
      to the intent, and carries that answer's [reference].
    - Functional behaviour of each handler, on every branch:
      - [onAdd], [removeItem] and [total] ([Cart]);
      - the three steps of [checkout] and each way they fail
        ([Checkout]);
      - [loadProducts] and [filtered] ([Catalog]);
      - [handleSubmit] ([Contact]).
    - Behaviours that are races or defects of the code, shown by
      scenarios that [vm_compute] evaluates and that are proved
      reachable ([App]):
      - a duplicate order;
      - a line added during a checkout is dropped;
      - a stale catalog answer wins;
      - the loading flag is cleared while a load is pending;
      - a second inquiry is sent after the form remounts;
      - the navigation bar's "Silver" and "Oxidised" blank the page
        without loading anything ([navbar_category_blank]).
      One such defect is proved of every reachable state: a catalog
      answer that is a JSON object, such as a FastAPI error body,
      unmounts the page whenever the grid is shown or a category is
      selected ([error_answer_unmounts_app]).
      Other such defects are proved in their own files:
      - error bodies become the product list ([Catalog]);
      - exception texts, and [String(detail)] whatever the detail is,
        are shown ([Checkout]);
      - text typed during a submission is lost ([Contact]);
      - two navigation targets select no panel ([App]).

    ** Numbers, fuel and what is not modelled

    JavaScript numbers are modelled as [Z]: the prices the backend sends
    are assumed integral (rupees); floating-point rounding and NaN
    produced by arithmetic on numbers are not modelled, NaN produced by
    [ToNumber] on a non-numeric price is ([option Z], [None] is NaN).
    So [total_spec], the cart total as a sum of price times quantity,
    is exact in this model.  In JavaScript it holds up to
    floating-point rounding, because [reduce] adds from the left.
    Totals are assumed below 10^21, where [toFixed(2)] prints fixed
    notation.  Tasks are finite trees, so [run] is structural and needs
    no fuel.

    Rendering is modelled where it can throw or shows data: the text of
    the cart panel ([cart_panel]), the children of a product card, its
    image slot, and the contact form's button label and status line.
    Not modelled, because they are presentation only or not in the
    repository:
    - the rest of the markup and the styling of the components;
    - the [lucide] icons and the footer's date;
    - the backend itself.  Its answers are the inputs of the model, and
      its reading of the order body is the contract of spec section 6.  A [fetch] and the [res.json()] that
    follows it are one await point: no code runs between them, so no
    other handler can observe the difference.

    The React semantics assumed:
    - A setter's update is applied at once.  The handlers never read a
      hook they have just set; they read the values their closure
      captured, and [App] passes those captured values explicitly (the
      [cart] of [checkout], the [form] of [handleSubmit]).
    - A render follows every event.  A render that throws unmounts the
      page, because there is no error boundary.
    - An effect runs after the render that changed its dependency.
    - Updates of an unmounted [ContactForm] are ignored.

    Two JavaScript behaviours are simplified.  Object and array ids
    are never [===], because references are not modelled.  [Number]
    accepts decimal integers only.

    No definition needs fuel:
    - [run] and [settle] recurse on the task tree;
    - [exec] recurses on its list of events;
    - [step] is a function, with no loop.
    The invariants are stated for every length of event sequence, by
    induction on [reachable]. *)

From stdpp Require Export base list strings pretty option.
From Stdlib Require Export ZArith Lia.

Declare Scope js_scope.
Delimit Scope js_scope with js.
Open Scope Z_scope.

Create HintDb storefront discriminated.
Create Rewrite HintDb storefront.

(** ** JavaScript array methods over lists *)

Section ArrayMethods.
Context {A : Type}.

(** [Array.prototype.findIndex]: the first index whose element
    satisfies [f], or [-1]. *)
Fixpoint findIndex (f : A -> bool) (l : list A) : Z :=
  match l with
  | [] => -1
  | x :: l' => if f x then 0 else
                 let i := findIndex f l' in
                 if i =? -1 then -1 else i + 1
  end.

(** [Array.prototype.filter] with the callback [(x, i) => ...]. *)
Fixpoint filteri_from (f : A -> nat -> bool) (i : nat) (l : list A) : list A :=
  match l with
  | [] => []
  | x :: l' => if f x i then x :: filteri_from f (S i) l'
               else filteri_from f (S i) l'
  end.

Definition filteri (f : A -> nat -> bool) (l : list A) : list A :=
  filteri_from f 0 l.

(** Every element is related by [R] to each later one. *)
Fixpoint pairwiseb (R : A -> A -> bool) (l : list A) : bool :=
  match l with
  | [] => true
  | x :: l' => forallb (R x) l' && pairwiseb R l'
  end.

(** [Array.prototype.reduce] with an initial value. *)
Definition reduce {B : Type} (f : B -> A -> B) (init : B) (l : list A) : B :=
  foldl f init l.

(** The number of elements a boolean test selects. *)
Definition count (f : A -> bool) (l : list A) : nat := length (List.filter f l).

Lemma findIndex_list_find (f : A -> bool) (l : list A) :
  findIndex f l = match list_find (fun x => f x = true) l with
                  | Some (i, _) => Z.of_nat i
                  | None => -1
                  end.
Proof.
  induction l as [|x l IH]; simpl; [done|].
  destruct (f x) eqn:Hf.
  - rewrite decide_True; done.
  - rewrite decide_False; [|congruence]. rewrite IH. destruct (list_find _ l) as [[i y]|]; simpl; [|done].
  destruct (Z.eqb_spec (Z.of_nat i) (-1)); lia.
Qed.

Lemma findIndex_Some (f : A -> bool) (l : list A) (i : nat) (x : A) :
  list_find (fun y => f y = true) l = Some (i, x) ->
  findIndex f l = Z.of_nat i.
Proof. intros H. by rewrite findIndex_list_find, H. Qed.

Lemma findIndex_None (f : A -> bool) (l : list A) :
  Forall (fun y => f y = false) l -> findIndex f l = -1.
Proof.
  intros H. rewrite findIndex_list_find.
  replace (list_find _ l) with (@None (nat * A)); [done|].
  symmetry. apply list_find_None. eapply Forall_impl; [|exact H].
  intros y Hy Hy'. congruence.
Qed.

Lemma filteri_from_all (f : A -> nat -> bool) (n : nat) (l : list A) :
  (forall x j, (n <= j)%nat -> f x j = true) -> filteri_from f n l = l.
Proof.
  revert n. induction l as [|x l IH]; intros n Hf; simpl; [done|].
  rewrite Hf; [|lia]. f_equal. apply IH. intros; apply Hf; lia.
Qed.

Lemma filteri_from_delete (f : A -> nat -> bool) (i k : nat) (l : list A) :
  (forall x j, f x j = negb (j =? i + k)%nat) -> filteri_from f i l = delete k l.
Proof.
  revert i k. induction l as [|x l IH]; intros i k Hf; simpl; [done|].
  rewrite Hf. destruct k as [|k].
  - rewrite Nat.add_0_r, Nat.eqb_refl. simpl. apply filteri_from_all.
    intros y j Hj. rewrite Hf. apply negb_true_iff, Nat.eqb_neq. lia.
  - replace (i =? i + S k)%nat with false by (symmetry; apply Nat.eqb_neq; lia).
    simpl. f_equal. apply IH. intros y j. rewrite Hf. do 2 f_equal. lia.
Qed.

(** Filtering out index [k] is stdpp's [delete k]: the element at [k] is
    gone, the others keep their order, and an index out of range
    changes nothing. *)
Lemma filteri_delete (k : nat) (l : list A) :
  filteri (fun _ i => negb (i =? k)%nat) l = delete k l.
Proof. apply filteri_from_delete. done. Qed.

Lemma reduce_app {B : Type} (f : B -> A -> B) (b : B) (l1 l2 : list A) :
  reduce f b (l1 ++ l2) = reduce f (reduce f b l1) l2.
Proof. apply foldl_app. Qed.

Lemma findIndex_lookup (f : A -> bool) (l : list A) :
  findIndex f l <> -1 ->
  exists x, l !! Z.to_nat (findIndex f l) = Some x /\ f x = true.
Proof.
  rewrite findIndex_list_find.
  destruct (list_find _ l) as [[i x]|] eqn:E; [|done].
  intros _. apply list_find_Some in E as (Hl & Hx & _).
  exists x. by rewrite Nat2Z.id.
Qed.

Lemma delete_ge (i : nat) (l : list A) : (length l <= i)%nat -> delete i l = l.
Proof.
  revert i. induction l as [|x l IH]; intros [|i] Hi; simpl in *; try lia; try done.
  f_equal. apply IH. lia.
Qed.

Lemma pairwiseb_sublist (R : A -> A -> bool) (l1 l2 : list A) :
  sublist l1 l2 -> pairwiseb R l2 = true -> pairwiseb R l1 = true.
Proof.
  induction 1 as [|x l1 l2 Hs IH|x l1 l2 Hs IH]; simpl.
  - done.
  - rewrite !andb_true_iff, !forallb_forall. intros [Hx H2]. split; [|auto].
    intros y Hy. apply Hx. apply list_elem_of_In. eapply elem_of_sublist; [|exact Hs].
    by apply list_elem_of_In.
  - rewrite andb_true_iff. intros [_ H2]. auto.
Qed.

Lemma pairwiseb_snoc (R : A -> A -> bool) (l : list A) (y : A) :
  pairwiseb R (l ++ [y]) = pairwiseb R l && forallb (fun x => R x y) l.
Proof.
  induction l as [|x l IH]; simpl; [done|].
  rewrite forallb_app, IH. simpl. destruct (R x y), (forallb (R x) l),
    (pairwiseb R l), (forallb (fun x => R x y) l); done.
Qed.

Lemma elem_of_delete_ne (x y : A) (i : nat) (l : list A) :
  x ∈ l -> l !! i = Some y -> y <> x -> x ∈ delete i l.
Proof.
  intros Hx Hi Hne. apply list_elem_of_lookup in Hx as [j Hj].
  apply list_elem_of_lookup.
  destruct (Nat.lt_total j i) as [Hlt|[->|Hgt]].
  - exists j. by rewrite list_lookup_delete_lt.
  - congruence.
  - exists (j - 1)%nat. rewrite list_lookup_delete_ge by lia.
    by replace (S (j - 1)) with j by lia.
Qed.

Lemma elem_of_insert_ne (x y z : A) (i : nat) (l : list A) :
  x ∈ l -> l !! i = Some y -> y <> x -> x ∈ <[i := z]> l.
Proof.
  intros Hx Hi Hne. apply list_elem_of_lookup in Hx as [j Hj].
  apply list_elem_of_lookup. exists j.
  rewrite list_lookup_insert_ne; [done|]. intros ->. congruence.
Qed.

(** [forallb] over the updates the components apply to arrays. *)
Lemma forallb_delete (f : A -> bool) (i : nat) (l : list A) :
  forallb f l = true -> forallb f (delete i l) = true.
Proof.
  revert i. induction l as [|x l IH]; intros [|i] H; simpl in *; [done|done|..];
    apply andb_true_iff in H as [Hx Hl]; [done|]. by rewrite Hx, IH.
Qed.

Lemma forallb_insert (f : A -> bool) (i : nat) (x : A) (l : list A) :
  forallb f l = true -> f x = true -> forallb f (<[i := x]> l) = true.
Proof.
  revert i. induction l as [|y l IH]; intros [|i] H Hx; simpl in *; [done|done|..];
    apply andb_true_iff in H as [Hy Hl]; [by rewrite Hx|by rewrite Hy, IH].
Qed.

Lemma forallb_sublist (f : A -> bool) (l1 l2 : list A) :
  sublist l1 l2 -> forallb f l2 = true -> forallb f l1 = true.
Proof.
  induction 1 as [|x l1 l2 _ IH|x l1 l2 _ IH]; simpl; [done|..];
    intros H; apply andb_true_iff in H as [Hx Hl]; [by rewrite Hx, IH|auto].
Qed.

Lemma forallb_snoc (f : A -> bool) (l : list A) (x : A) :
  forallb f l = true -> f x = true -> forallb f (l ++ [x]) = true.
Proof. intros Hl Hx. by rewrite forallb_app, Hl; simpl; rewrite Hx. Qed.

(** The updates a list of pending entries undergoes, and how they
    change the number of elements a boolean test selects. *)
Lemma count_snoc (f : A -> bool) (l : list A) (x : A) :
  count f (l ++ [x]) = (count f l + if f x then 1 else 0)%nat.
Proof.
  unfold count. rewrite List.filter_app, length_app. simpl. by destruct (f x).
Qed.

Lemma count_delete (f : A -> bool) (i : nat) (l : list A) (x : A) :
  l !! i = Some x -> count f l = (count f (delete i l) + if f x then 1 else 0)%nat.
Proof.
  unfold count. revert i. induction l as [|y l IH]; intros [|i] H; simpl in *; try done.
  - injection H as ->. destruct (f x); simpl; lia.
  - destruct (f y); simpl; rewrite (IH i H); lia.
Qed.

Lemma count_insert (f : A -> bool) (i : nat) (l : list A) (x y : A) :
  l !! i = Some x -> f y = f x -> count f (<[i := y]> l) = count f l.
Proof.
  unfold count. revert i. induction l as [|z l IH]; intros [|i] H Hf; simpl in *; try done.
  - injection H as <-. rewrite Hf. by destruct (f z).
  - destruct (f z); simpl; rewrite (IH i H Hf); done.
Qed.

Lemma count_none (f : A -> bool) (l : list A) :
  Forall (fun x => f x = false) l -> count f l = 0%nat.
Proof.
  unfold count. induction 1 as [|x l Hx _ IH]; simpl; [done|]. by rewrite Hx.
Qed.

End ArrayMethods.

(** Peel the guards off a handler's result [H : (if ... then Some _ else None) = Some w]:
    each [decide] guard is kept as a hypothesis, a failed one closes the
    goal, and the final [Some] is injected. *)
Ltac inv_some H :=
  repeat lazymatch type of H with
  | Some _ = Some _ => injection H as <-
  | (if decide _ then _ else _) = Some _ => case_decide; [|discriminate H]
  end.

#[export] Hint Resolve filteri_delete : storefront.
#[export] Hint Resolve forallb_delete forallb_insert forallb_snoc : storefront.
