(* ===== verification/JsValue.v ===== *)
(** * JSON values and the JavaScript operations the storefront applies to them

    The backend's answers are parsed by [res.json()] into JavaScript
    values; the code then reads properties of them ([orderData.detail],
    [piData.reference], [p._id], [p.category]), tests them with [||] and
    [===], prints them in template literals and passes them to
    [new Error(...)].  This file models those values as [jval] and each of
    those operations as a function, with the exceptions JavaScript throws
    as values of [js_error].

    Scope of the model: property access reads own properties of parsed
    objects (the keys the code reads are not inherited from a prototype);
    arrays and objects are never [===] to anything, as two results of
    [JSON.parse] are distinct objects (object-valued product ids are
    therefore not merged by [onAdd], where JavaScript would compare
    references); [ToNumber] on strings accepts an optional sign and
    decimal digits around ASCII white space, the integral prices of the
    model. *)

From S2P Require Import Prelude.
From Stdlib Require Import Ascii.
Open Scope string_scope.
#[local] Set Warnings "-register-all".

Module Js.

(** A value produced by [JSON.parse], or [undefined]. *)
Inductive jval : Type :=
| JUndefined
| JNull
| JBool (b : bool)
| JNum (n : Z)
| JStr (s : string)
| JArr (xs : list jval)
| JObj (fields : list (string * jval)).

(** The exceptions the code can meet: a [TypeError] (a property of
    [null]/[undefined], a rejected [fetch], a method called on a value
    that lacks it), a [SyntaxError] from [res.json()], and an [Error]
    built by the code itself. *)
Inductive js_error : Type :=
| TypeError (msg : string)
| SyntaxError (msg : string)
| Error (msg : string).

(** [e.message] *)
Definition message (e : js_error) : string :=
  match e with TypeError m | SyntaxError m | Error m => m end.

(** A computation that returns an [A] or throws. *)
Inductive except (A : Type) : Type :=
| Ok (a : A)
| Throw (e : js_error).
Arguments Ok {A} a.
Arguments Throw {A} e.

Definition bind {A B} (m : except A) (k : A -> except B) : except B :=
  match m with Ok a => k a | Throw e => Throw e end.

(** [xs.map(f)] with a callback that may throw: the first exception
    propagates. *)
Fixpoint mapE {A B} (f : A -> except B) (l : list A) : except (list B) :=
  match l with
  | [] => Ok []
  | x :: l' => bind (f x) (fun y => bind (mapE f l') (fun ys => Ok (y :: ys)))
  end.

(** Truthiness, as [if (v)] and [||] test it. *)
Definition truthy (v : jval) : bool :=
  match v with
  | JUndefined | JNull => false
  | JBool b => b
  | JNum n => negb (Z.eqb n 0)
  | JStr s => negb (String.eqb s "")
  | JArr _ | JObj _ => true
  end.

(** [a || b] *)
Definition js_or (a b : jval) : jval := if truthy a then a else b.

(** The last binding of [k] in an object's field list: [JSON.parse]
    keeps the last of duplicated keys. *)
Fixpoint field (k : string) (fs : list (string * jval)) : option jval :=
  match fs with
  | [] => None
  | (k', v) :: fs' =>
      match field k fs' with
      | Some w => Some w
      | None => if String.eqb k k' then Some v else None
      end
  end.

(** V8's message for reading a property of [null] or [undefined]. *)
Definition read_error (what k : string) : js_error :=
  TypeError ("Cannot read properties of " ++ what ++ " (reading '" ++ k ++ "')").

(** [v.k] *)
Definition get (v : jval) (k : string) : except jval :=
  match v with
  | JUndefined => Throw (read_error "undefined" k)
  | JNull => Throw (read_error "null" k)
  | JObj fs => Ok (default JUndefined (field k fs))
  | _ => Ok JUndefined
  end.

(** [String(v)], the conversion of template literals and of
    [new Error(v)]; array elements that are [null] or [undefined]
    print as the empty string, as [Array.prototype.join] does. *)
Fixpoint to_string (v : jval) : string :=
  match v with
  | JUndefined => "undefined"
  | JNull => "null"
  | JBool true => "true"
  | JBool false => "false"
  | JNum n => pretty n
  | JStr s => s
  | JArr xs =>
      (fix join (xs : list jval) : string :=
         match xs with
         | [] => ""
         | x :: rest =>
             let sx := match x with JUndefined | JNull => "" | _ => to_string x end in
             match rest with
             | [] => sx
             | _ => sx ++ "," ++ join rest
             end
         end) xs
  | JObj _ => "[object Object]"
  end.

(** [new Error(v)]: the message is [String(v)], or empty for
    [undefined]. *)
Definition new_error (v : jval) : js_error :=
  match v with JUndefined => Error "" | _ => Error (to_string v) end.

(** [a === b]. *)
Definition strict_eq (a b : jval) : bool :=
  match a, b with
  | JUndefined, JUndefined | JNull, JNull => true
  | JBool x, JBool y => Bool.eqb x y
  | JNum x, JNum y => Z.eqb x y
  | JStr x, JStr y => String.eqb x y
  | _, _ => false
  end.

(** ASCII white space, as [String.prototype.trim] removes it. *)
Definition is_space (c : Ascii.ascii) : bool :=
  let n := Ascii.nat_of_ascii c in ((9 <=? n)%nat && (n <=? 13)%nat) || (n =? 32)%nat.

Fixpoint trim_left (s : string) : string :=
  match s with
  | EmptyString => EmptyString
  | String c s' => if is_space c then trim_left s' else s
  end.

Definition trim (s : string) : string :=
  String.string_of_list_ascii
    (rev (String.list_ascii_of_string
            (trim_left (String.string_of_list_ascii
                          (rev (String.list_ascii_of_string (trim_left s))))))).

(** The decimal digits of a string, most significant first. *)
Fixpoint digits_value (acc : Z) (s : string) : option Z :=
  match s with
  | EmptyString => Some acc
  | String c s' =>
      let n := Ascii.nat_of_ascii c in
      if ((48 <=? n)%nat && (n <=? 57)%nat)
      then digits_value (10 * acc + Z.of_nat (n - 48)) s'
      else None
  end.

Definition unsigned_value (s : string) : option Z :=
  match s with EmptyString => None | _ => digits_value 0 s end.

(** [StringToNumber] on integral literals; [None] is NaN. *)
Definition string_to_number (s : string) : option Z :=
  match trim s with
  | EmptyString => Some 0
  | String c s' as t =>
      if Ascii.eqb c "-"%char then option_map Z.opp (unsigned_value s')
      else if Ascii.eqb c "+"%char then unsigned_value s'
      else unsigned_value t
  end.

(** [ToNumber(v)], as [*] applies it; [None] is NaN.  Arrays and
    objects go through their string form ([ToPrimitive]). *)
Definition to_number (v : jval) : option Z :=
  match v with
  | JUndefined => None
  | JNull => Some 0
  | JBool b => Some (if b then 1 else 0)
  | JNum n => Some n
  | JStr s => string_to_number s
  | JArr _ | JObj _ => string_to_number (to_string v)
  end.

(** [a * b] on numbers, NaN absorbing. *)
Definition mul (a b : jval) : option Z :=
  match to_number a, to_number b with
  | Some x, Some y => Some (x * y)
  | _, _ => None
  end.

(** What the backend receives for a body [v] sent as
    [JSON.stringify(v)]: object fields holding [undefined] are dropped
    and [undefined] array elements become [null]. *)
Fixpoint wire (v : jval) : jval :=
  match v with
  | JArr xs =>
      JArr (map (fun x => match x with JUndefined => JNull | _ => wire x end) xs)
  | JObj fs =>
      JObj ((fix go (fs : list (string * jval)) : list (string * jval) :=
               match fs with
               | [] => []
               | (k, JUndefined) :: fs' => go fs'
               | (k, x) :: fs' => (k, wire x) :: go fs'
               end) fs)
  | _ => v
  end.

(** [null] or [undefined]: the values whose properties cannot be read. *)
Definition nullish (v : jval) : bool :=
  match v with JUndefined | JNull => true | _ => false end.

(** JavaScript's [+] on two numbers, NaN ([None]) absorbing. *)
Definition nan_add (a b : option Z) : option Z :=
  match a, b with Some x, Some y => Some (x + y) | _, _ => None end.

(** Values [JSON.stringify] sends unchanged: no [undefined] anywhere
    (an [undefined] field is dropped, an [undefined] element becomes
    [null]). *)
Fixpoint wire_stable (v : jval) : bool :=
  match v with
  | JUndefined => false
  | JArr xs => forallb wire_stable xs
  | JObj fs => forallb (fun kv => wire_stable kv.2) fs
  | _ => true
  end.

(** Induction over JSON values with hypotheses for the elements of
    arrays and the fields of objects. *)
Section JvalInd.
Variable P : jval -> Prop.
Hypothesis HUndefined : P JUndefined.
Hypothesis HNull : P JNull.
Hypothesis HBool : forall b, P (JBool b).
Hypothesis HNum : forall n, P (JNum n).
Hypothesis HStr : forall s, P (JStr s).
Hypothesis HArr : forall xs, Forall P xs -> P (JArr xs).
Hypothesis HObj : forall fs, Forall (fun kv => P kv.2) fs -> P (JObj fs).

Fixpoint jval_ind' (v : jval) : P v :=
  match v with
  | JUndefined => HUndefined
  | JNull => HNull
  | JBool b => HBool b
  | JNum n => HNum n
  | JStr s => HStr s
  | JArr xs =>
      HArr xs ((fix go (xs : list jval) : Forall P xs :=
                  match xs with
                  | [] => Forall_nil_2 P
                  | x :: xs' => Forall_cons_2 P x xs' (jval_ind' x) (go xs')
                  end) xs)
  | JObj fs =>
      HObj fs ((fix go (fs : list (string * jval)) : Forall (fun kv => P kv.2) fs :=
                  match fs with
                  | [] => Forall_nil_2 _
                  | kv :: fs' => Forall_cons_2 (fun kv => P kv.2) kv fs' (jval_ind' kv.2) (go fs')
                  end) fs)
  end.

End JvalInd.

(** ** Lemmas *)

Lemma get_not_nullish (v : jval) (k : string) :
  nullish v = false -> exists w, get v k = Ok w.
Proof. destruct v; simpl; try discriminate; eauto. Qed.

Lemma get_nullish (v : jval) (k : string) :
  nullish v = true -> exists what, get v k = Throw (read_error what k).
Proof. destruct v; simpl; try discriminate; eauto. Qed.

Lemma strict_eq_eq (a b : jval) : strict_eq a b = true -> a = b.
Proof.
  destruct a, b; simpl; intros H; try discriminate; try done.
  - by apply Bool.eqb_prop in H as ->.
  - by apply Z.eqb_eq in H as ->.
  - by apply String.eqb_eq in H as ->.
Qed.

Lemma strict_eq_str (s : string) : strict_eq (JStr s) (JStr s) = true.
Proof. apply String.eqb_refl. Qed.

Lemma js_or_truthy (a b : jval) : truthy a = true -> js_or a b = a.
Proof. unfold js_or. by intros ->. Qed.

Lemma js_or_falsy (a b : jval) : truthy a = false -> js_or a b = b.
Proof. unfold js_or. by intros ->. Qed.

Lemma message_new_error_str (s : string) : message (new_error (JStr s)) = s.
Proof. done. Qed.

Lemma nan_add_assoc (a b c : option Z) :
  nan_add (nan_add a b) c = nan_add a (nan_add b c).
Proof. destruct a, b, c; simpl; f_equal; try done; lia. Qed.

Lemma nan_add_0_l (a : option Z) : nan_add (Some 0) a = a.
Proof. by destruct a. Qed.

Lemma mul_num (a : jval) (n : Z) :
  mul a (JNum n) = (fun u => u * n) <$> to_number a.
Proof. unfold mul. by destruct (to_number a). Qed.

Lemma mapE_cons_ok {A B} (f : A -> except B) (x : A) (l : list A) :
  (exists ys, mapE f (x :: l) = Ok ys) <->
  (exists y, f x = Ok y) /\ (exists ys, mapE f l = Ok ys).
Proof.
  simpl. split.
  - intros [ys H]. destruct (f x) as [y|]; [|discriminate]. simpl in H.
    destruct (mapE f l) as [ys'|]; [|discriminate]. eauto.
  - intros [[y ->] [ys ->]]. simpl. eauto.
Qed.

(** [JSON.stringify] leaves a stable value unchanged: what the backend
    parses is the value the code built. *)
Lemma wire_stable_id (v : jval) : wire_stable v = true -> wire v = v.
Proof.
  induction v as [| | | | |xs IH|fs IH] using jval_ind'; simpl; intros H; try done.
  - f_equal. induction xs as [|x xs IHxs]; [done|]. simpl in H.
    apply andb_true_iff in H as [Hx Hxs]. inversion IH as [|? ? Hx' IH']; subst. simpl.
    rewrite (IHxs IH' Hxs). destruct x; try discriminate Hx; f_equal; by apply Hx'.
  - f_equal. induction fs as [|[k x] fs IHfs]; [done|]. simpl in H.
    apply andb_true_iff in H as [Hx Hfs]. inversion IH as [|? ? Hx' IH']; subst.
    destruct x; try discriminate Hx; rewrite (IHfs IH' Hfs); f_equal; f_equal; by apply Hx'.
Qed.

End Js.

#[export] Hint Resolve Js.strict_eq_str : storefront.
#[export] Hint Rewrite Js.nan_add_0_l Js.mul_num : storefront.
