(* ===== verification/Cart.v ===== *)
(** * The cart store: [onAdd] and [removeItem] of [App.jsx], the total of
    [Cart.jsx]

    A cart line is the object literal [onAdd] builds,
    [{ _id: p._id, title: p.title, price: p.price, qty: 1 }]; its three
    first fields are JSON values copied from the product, its quantity
    is a number the code only ever sets to [1] or increments.  [onAdd]
    is the updater passed to [setCart], [removeItem] likewise, and
    [total] is the [reduce] of [Cart.jsx] line 2, with NaN ([None])
    propagated as JavaScript does. *)

From S2P Require Import Prelude JsValue.
Import Js.
Open Scope string_scope.
Open Scope list_scope.

Module CartStore.

Record line : Type := mk_line {
  _id : jval;
  title : jval;
  price : jval;
  qty : Z
}.

(** [{ ...copy[idx], qty: copy[idx].qty + 1 }] *)
Definition bump (x : line) : line :=
  mk_line (_id x) (title x) (price x) (qty x + 1).

(** The [setCart] updater of [onAdd(p)] (App.jsx 40-50).  The index
    found by [findIndex] is in range (lemma [findIndex_in_range]), so
    [copy[idx] = ...] is stdpp's in-range [insert] and the [TypeError]
    that [copy[idx].qty] would throw out of range is never raised. *)
Definition onAdd (p : jval) (prev : list line) : except (list line) :=
  bind (get p "_id") (fun pid =>
    let idx := findIndex (fun x => strict_eq (_id x) pid) prev in
    if negb (Z.eqb idx (-1)) then
      match prev !! Z.to_nat idx with
      | Some x => Ok (<[Z.to_nat idx := bump x]> prev)
      | None => Throw (read_error "undefined" "qty")
      end
    else
      bind (get p "title") (fun t =>
      bind (get p "price") (fun pr =>
        Ok (prev ++ [mk_line pid t pr 1])))).

(** The [setCart] updater of [removeItem(idx)] (App.jsx 52-54). *)
Definition removeItem (idx : nat) (prev : list line) : list line :=
  filteri (fun _ i => negb (Nat.eqb i idx)) prev.

(** [i.price * i.qty] *)
Definition line_amount (i : line) : option Z := mul (price i) (JNum (qty i)).

(** [items.reduce((sum, i) => sum + i.price * i.qty, 0)] (Cart.jsx 2). *)
Definition total_step (sum : option Z) (i : line) : option Z :=
  nan_add sum (line_amount i).

Definition total (items : list line) : option Z :=
  reduce total_step (Some 0) items.

(** [cartCount] of the navigation bar: [cart.length] (App.jsx 103). *)
Definition cartCount (items : list line) : nat := length items.

(** No two lines hold strictly-equal product ids (a line is compared
    with every later one). *)
Definition distinct_ids (items : list line) : bool :=
  pairwiseb (fun a b => negb (strict_eq a b)) (_id <$> items).

(** Every quantity is a positive integer. *)
Definition qty_positive (items : list line) : Prop :=
  Forall (fun x => 0 < qty x) items.

(** The cart invariant. *)
Definition cart_wf (items : list line) : Prop :=
  distinct_ids items = true /\ qty_positive items.

(** ** Lemmas *)

Lemma onAdd_merge (p : jval) (prev : list line) (pid : jval) (i : nat) (x : line) :
  get p "_id" = Ok pid ->
  list_find (fun y => strict_eq (_id y) pid = true) prev = Some (i, x) ->
  onAdd p prev = Ok (<[i := bump x]> prev).
Proof.
  intros Hp Hf. unfold onAdd. rewrite Hp. simpl.
  rewrite (findIndex_Some (fun y => strict_eq (_id y) pid) _ _ _ Hf).
  apply list_find_Some in Hf as (Hl & _ & _).
  replace (Z.eqb (Z.of_nat i) (-1)) with false by (symmetry; apply Z.eqb_neq; lia).
  simpl. by rewrite Nat2Z.id, Hl.
Qed.

Lemma onAdd_append (p : jval) (prev : list line) (pid t pr : jval) :
  get p "_id" = Ok pid -> get p "title" = Ok t -> get p "price" = Ok pr ->
  Forall (fun y => strict_eq (_id y) pid = false) prev ->
  onAdd p prev = Ok (prev ++ [mk_line pid t pr 1]).
Proof.
  intros Hi Ht Hp Hn. unfold onAdd. rewrite Hi. simpl.
  rewrite (findIndex_None _ _ Hn). simpl. by rewrite Ht, Hp.
Qed.

Lemma onAdd_cases (p : jval) (prev c : list line) :
  onAdd p prev = Ok c ->
  exists pid, get p "_id" = Ok pid /\
    ((exists i x, list_find (fun y => strict_eq (_id y) pid = true) prev = Some (i, x)
                  /\ c = <[i := bump x]> prev)
     \/ (Forall (fun y => strict_eq (_id y) pid = false) prev
         /\ exists t pr, get p "title" = Ok t /\ c = prev ++ [mk_line pid t pr 1])).
Proof.
  intros H. destruct (get p "_id") as [pid|e] eqn:Hi;
    [|unfold onAdd in H; rewrite Hi in H; discriminate].
  exists pid. split; [done|].
  destruct (list_find (fun y => strict_eq (_id y) pid = true) prev) as [[i x]|] eqn:Hf.
  - left. exists i, x. split; [done|].
    rewrite (onAdd_merge _ _ _ _ _ Hi Hf) in H. congruence.
  - right. apply list_find_None in Hf.
    assert (Hn : Forall (fun y => strict_eq (_id y) pid = false) prev).
    { eapply Forall_impl; [|exact Hf]. intros y Hy. by apply not_true_iff_false. }
    split; [done|].
    destruct (get_not_nullish p "title") as [t Ht];
      [destruct p; simpl in *; congruence|].
    destruct (get_not_nullish p "price") as [pr Hp];
      [destruct p; simpl in *; congruence|].
    rewrite (onAdd_append _ _ _ _ _ Hi Ht Hp Hn) in H. exists t, pr. split; [done|congruence].
Qed.

Lemma distinct_ids_bump (l : list line) (i : nat) (x : line) :
  l !! i = Some x -> distinct_ids (<[i := bump x]> l) = distinct_ids l.
Proof.
  intros H. unfold distinct_ids. rewrite list_fmap_insert. simpl.
  rewrite list_insert_id; [done|]. by rewrite list_lookup_fmap, H.
Qed.

Lemma distinct_ids_snoc (l : list line) (y : line) :
  Forall (fun x => strict_eq (_id x) (_id y) = false) l ->
  distinct_ids (l ++ [y]) = distinct_ids l.
Proof.
  intros H. unfold distinct_ids. rewrite fmap_app. simpl. rewrite pairwiseb_snoc.
  replace (forallb _ _) with true; [by rewrite andb_true_r|].
  symmetry. apply forallb_forall. intros a Ha.
  apply list_elem_of_In, list_elem_of_fmap in Ha as (x & -> & Hx).
  rewrite Forall_forall in H. apply list_elem_of_In in Hx. by rewrite (H x Hx).
Qed.

Lemma removeItem_delete (idx : nat) (prev : list line) :
  removeItem idx prev = delete idx prev.
Proof. unfold removeItem. auto with storefront. Qed.

Lemma total_from (s : option Z) (l : list line) :
  foldl total_step s l = nan_add s (total l).
Proof.
  unfold total, reduce. revert s. induction l as [|x l IH]; intros s; cbn [foldl].
  - destruct s; simpl; f_equal; lia.
  - rewrite (IH (total_step s x)), (IH (total_step (Some 0) x)). unfold total_step.
    rewrite !nan_add_assoc. by autorewrite with storefront.
Qed.

Lemma total_app (l1 l2 : list line) :
  total (l1 ++ l2) = nan_add (total l1) (total l2).
Proof. unfold total at 1, reduce. rewrite foldl_app. apply total_from. Qed.

Lemma total_cons (x : line) (l : list line) :
  total (x :: l) = nan_add (line_amount x) (total l).
Proof.
  unfold total at 1, reduce. cbn [foldl]. rewrite total_from.
  unfold total_step. by autorewrite with storefront.
Qed.

Lemma total_bump (l : list line) (i : nat) (x : line) :
  l !! i = Some x ->
  total (<[i := bump x]> l) = nan_add (total l) (to_number (price x)).
Proof.
  intros H. pose proof (take_drop_middle l i x H) as E.
  rewrite insert_take_drop by (eapply lookup_lt_Some; exact H).
  set (A := take i l) in *. set (B := drop (S i) l) in *. clearbody A B. subst l.
  rewrite !total_app, !total_cons.
  unfold line_amount. autorewrite with storefront. simpl.
  destruct (total A), (total B), (to_number (price x)); simpl; try done. f_equal. lia.
Qed.

Lemma total_snoc (l : list line) (y : line) :
  total (l ++ [y]) = nan_add (total l) (line_amount y).
Proof.
  rewrite total_app, total_cons. simpl.
  destruct (total l), (line_amount y); simpl; try done. f_equal. lia.
Qed.

(** C9: Adding a product whose string id is not in the cart, twice in a
    row, yields one new line with quantity 2 appended after the existing
    lines, not two lines (spec section 8, first property). *)
Theorem onAdd_same_twice (p : jval) (prev : list line) (s : string) (t pr : jval) :
  get p "_id" = Ok (JStr s) -> get p "title" = Ok t -> get p "price" = Ok pr ->
  Forall (fun y => strict_eq (_id y) (JStr s) = false) prev ->
  bind (onAdd p prev) (onAdd p) = Ok (prev ++ [mk_line (JStr s) t pr 2]).
Proof.
  intros Hi Ht Hp Hn. rewrite (onAdd_append _ _ _ _ _ Hi Ht Hp Hn). simpl.
  erewrite (onAdd_merge _ _ _ (length prev + 0)%nat (mk_line (JStr s) t pr 1) Hi).
  - by rewrite insert_app_r.
  - rewrite list_find_app_r.
    + simpl. rewrite decide_True by apply strict_eq_str. simpl. by rewrite Nat.add_0_r.
    + apply list_find_None. eapply Forall_impl; [|exact Hn]. congruence.
Qed.

(** C10: Adding two products with different string ids, neither in the
    cart, appends two lines in the order of the clicks, each with
    quantity 1 and the title and price read at the click (spec section
    8, second property). *)
Theorem onAdd_two_distinct (p q : jval) (prev : list line) (s1 s2 : string) (t1 pr1 t2 pr2 : jval) :
  get p "_id" = Ok (JStr s1) -> get p "title" = Ok t1 -> get p "price" = Ok pr1 ->
  get q "_id" = Ok (JStr s2) -> get q "title" = Ok t2 -> get q "price" = Ok pr2 ->
  s1 <> s2 ->
  Forall (fun y => strict_eq (_id y) (JStr s1) = false) prev ->
  Forall (fun y => strict_eq (_id y) (JStr s2) = false) prev ->
  bind (onAdd p prev) (onAdd q) =
  Ok (prev ++ [mk_line (JStr s1) t1 pr1 1; mk_line (JStr s2) t2 pr2 1]).
Proof.
  intros Hi1 Ht1 Hp1 Hi2 Ht2 Hp2 Hne Hn1 Hn2.
  rewrite (onAdd_append _ _ _ _ _ Hi1 Ht1 Hp1 Hn1). simpl.
  rewrite (onAdd_append _ _ _ _ _ Hi2 Ht2 Hp2); [by rewrite <- app_assoc|].
  apply Forall_app; split; [done|]. constructor; [|constructor].
  simpl. by apply String.eqb_neq.
Qed.

(** [onAdd] preserves the cart invariant: ids stay pairwise not
    [===] and every quantity stays positive. *)
Theorem onAdd_wf (p : jval) (prev c : list line) :
  cart_wf prev -> onAdd p prev = Ok c -> cart_wf c.
Proof.
  intros [Hd Hq] H. apply onAdd_cases in H as (pid & _ & [(i & x & Hf & ->)|(Hn & t & pr & _ & ->)]).
  - apply list_find_Some in Hf as (Hl & _ & _). split.
    + by rewrite distinct_ids_bump.
    + apply Forall_insert; [done|]. unfold bump; simpl.
      pose proof (Forall_lookup_1 _ _ _ _ Hq Hl). simpl in *. lia.
  - split.
    + by rewrite distinct_ids_snoc.
    + apply Forall_app; split; [done|]. constructor; simpl; [lia|constructor].
Qed.

(** C11: After [onAdd p], the cart holds a line for [p]'s id, and the
    total grows by that line's unit price: the price copied when the
    product was first added, not the product's current price. *)
Theorem onAdd_total (p : jval) (prev c : list line) :
  onAdd p prev = Ok c ->
  exists i y, c !! i = Some y /\ get p "_id" = Ok (_id y) /\
              total c = nan_add (total prev) (to_number (price y)).
Proof.
  intros H. apply onAdd_cases in H as (pid & Hi & [(i & x & Hf & ->)|(Hn & t & pr & _ & ->)]).
  - apply list_find_Some in Hf as (Hl & Hx & _).
    exists i, (bump x). split; [apply list_lookup_insert_eq; eapply lookup_lt_Some; exact Hl|].
    split; [simpl; by rewrite (strict_eq_eq _ _ Hx)|]. by rewrite (total_bump _ _ _ Hl).
  - exists (length prev), (mk_line pid t pr 1). split; [by rewrite lookup_app_r, Nat.sub_diag by lia|].
    split; [done|]. rewrite total_snoc. unfold line_amount. rewrite mul_num.
    simpl. destruct (to_number pr); simpl; [do 2 f_equal; lia|by destruct (total prev)].
Qed.

(** [onAdd] of a product that is not [null] or [undefined] returns a
    cart. *)
Lemma onAdd_not_nullish (p : jval) (prev : list line) :
  nullish p = false -> exists c, onAdd p prev = Ok c.
Proof.
  intros Hp. destruct (get_not_nullish p "_id") as [pid Hi]; [done|].
  destruct (list_find (fun y => strict_eq (_id y) pid = true) prev) as [[i x]|] eqn:Hf.
  - eexists. by apply (onAdd_merge _ _ _ _ _ Hi Hf).
  - destruct (get_not_nullish p "title") as [t Ht]; [done|].
    destruct (get_not_nullish p "price") as [pr Hpr]; [done|].
    eexists. apply (onAdd_append _ _ _ _ _ Hi Ht Hpr).
    apply list_find_None in Hf. eapply Forall_impl; [|exact Hf].
    intros y Hy. by apply not_true_iff_false.
Qed.

(** C35: [onAdd] throws (a [TypeError] reading [_id]) exactly when the
    product is [null] or [undefined]; otherwise it returns a cart. *)
Theorem onAdd_defined (p : jval) (prev : list line) :
  (exists c, onAdd p prev = Ok c) <-> nullish p = false.
Proof.
  split.
  - intros [c H]. unfold onAdd in H. destruct p; simpl in *; done.
  - apply onAdd_not_nullish.
Qed.

(** C13: Removing position [idx] keeps the lines before [idx] in place
    and shifts the lines after it down by one; when [idx] is in range
    the cart loses exactly one line. *)
Theorem removeItem_spec (idx : nat) (prev : list line) :
  (idx < length prev)%nat ->
  length (removeItem idx prev) = (length prev - 1)%nat /\
  forall j, removeItem idx prev !! j =
            if decide (j < idx)%nat then prev !! j else prev !! S j.
Proof.
  intros H. rewrite removeItem_delete. split.
  - apply length_delete, lookup_lt_is_Some_2, H.
  - intros j. case_decide.
    + by apply list_lookup_delete_lt.
    + apply list_lookup_delete_ge. lia.
Qed.

(** C14: Removing a position out of range leaves the cart unchanged:
    [filter] keeps every line (no exception, no change). *)
Theorem removeItem_out_of_range (idx : nat) (prev : list line) :
  (length prev <= idx)%nat -> removeItem idx prev = prev.
Proof. intros H. rewrite removeItem_delete. by apply delete_ge. Qed.

(** [removeItem] preserves the cart invariant. *)
Theorem removeItem_wf (idx : nat) (prev : list line) :
  cart_wf prev -> cart_wf (removeItem idx prev).
Proof.
  intros [Hd Hq]. rewrite removeItem_delete. split.
  - unfold distinct_ids in *. rewrite list_fmap_delete.
    eapply pairwiseb_sublist; [apply sublist_delete|exact Hd].
  - by apply Forall_delete.
Qed.

(** C12: The total of [Cart.jsx] is the sum over the lines of the
    line's price, converted to a number, times its quantity, when every
    price converts; it is NaN ([None]) as soon as one price does not,
    and the empty cart totals 0.  (Numbers are integers in this model,
    see the header: the identity is exact here, and holds up to float
    rounding in JavaScript.) *)
Theorem total_spec (items : list line) :
  total items =
  (fun ps => foldr Z.add 0 (zip_with Z.mul ps (qty <$> items)))
    <$> mapM (fun i => to_number (price i)) items.
Proof.
  induction items as [|x l IH]; [done|].
  rewrite total_cons, IH. unfold line_amount. rewrite mul_num. simpl.
  destruct (to_number (price x)), (mapM _ l); done.
Qed.

(** ** Witnesses, on the products [r1] (a ring at 100) and [e2] (earrings
    at 250) as the backend sends them. *)

#[local] Abbreviation r1 :=
  (JObj [("_id", JStr "r1"); ("title", JStr "Ring"); ("category", JStr "silver");
         ("price", JNum 100)]).
#[local] Abbreviation e2 :=
  (JObj [("_id", JStr "e2"); ("title", JStr "Earrings"); ("category", JStr "oxidised");
         ("price", JNum 250)]).

Lemma onAdd_same_twice_witness :
  bind (onAdd r1 []) (onAdd r1) = Ok [mk_line (JStr "r1") (JStr "Ring") (JNum 100) 2].
Proof.
  apply (onAdd_same_twice r1 [] "r1" (JStr "Ring") (JNum 100)); try reflexivity.
  constructor.
Defined.

Lemma onAdd_two_distinct_witness :
  bind (onAdd r1 []) (onAdd e2) =
  Ok [mk_line (JStr "r1") (JStr "Ring") (JNum 100) 1;
      mk_line (JStr "e2") (JStr "Earrings") (JNum 250) 1].
Proof.
  apply (onAdd_two_distinct r1 e2 [] "r1" "e2"); try reflexivity; try constructor.
  discriminate.
Defined.

Lemma onAdd_total_witness :
  exists i y, [mk_line (JStr "r1") (JStr "Ring") (JNum 100) 2] !! i = Some y /\
    get r1 "_id" = Ok (_id y) /\
    total [mk_line (JStr "r1") (JStr "Ring") (JNum 100) 2] =
    nan_add (total [mk_line (JStr "r1") (JStr "Ring") (JNum 100) 1]) (to_number (price y)).
Proof. apply (onAdd_total r1). reflexivity. Defined.

Lemma removeItem_spec_witness :
  length (removeItem 0 [mk_line (JStr "r1") (JStr "Ring") (JNum 100) 2;
                        mk_line (JStr "e2") (JStr "Earrings") (JNum 250) 1]) = 1%nat /\
  forall j, removeItem 0 [mk_line (JStr "r1") (JStr "Ring") (JNum 100) 2;
                          mk_line (JStr "e2") (JStr "Earrings") (JNum 250) 1] !! j =
    if decide (j < 0)%nat
    then [mk_line (JStr "r1") (JStr "Ring") (JNum 100) 2;
          mk_line (JStr "e2") (JStr "Earrings") (JNum 250) 1] !! j
    else [mk_line (JStr "r1") (JStr "Ring") (JNum 100) 2;
          mk_line (JStr "e2") (JStr "Earrings") (JNum 250) 1] !! S j.
Proof. apply removeItem_spec. simpl. lia. Defined.

Lemma removeItem_out_of_range_witness :
  removeItem 3 [mk_line (JStr "r1") (JStr "Ring") (JNum 100) 2] =
  [mk_line (JStr "r1") (JStr "Ring") (JNum 100) 2].
Proof. apply removeItem_out_of_range. simpl. lia. Defined.

End CartStore.
