(* ===== verification/Fetch.v ===== *)
(** * Requests, outcomes and async handlers

    Every handler of the program that talks to the backend is an
    [async] function: it runs synchronously up to its first [await],
    and each time an awaited [fetch] settles it resumes and runs
    synchronously up to the next [await] or to its end.  JavaScript's
    run-to-completion discipline means that nothing else runs inside one
    of these synchronous segments, and that anything may run between two
    of them.

    A [task] is such a handler: a finite tree whose nodes are
    synchronous state updates ([Act]) and awaits of a request ([Await]),
    the continuation of an await being a function of the request's
    [outcome].  [settle] runs the synchronous segment at the head of a
    task; [run] executes a whole task against a backend when no other
    handler interleaves.  The state type [S] is a parameter: the tasks
    of [Checkout] and [Catalog] act on it only through the [Hooks]
    interface.

    An outcome is that of [fetch(...)] followed by [res.json()]: the
    promise rejects ([Rejected], a [TypeError] such as V8's
    ["Failed to fetch"]) or resolves to a response whose [ok] flag is
    [200 <= status < 300] and whose body parses to a JSON value or
    fails with a [SyntaxError].  The code never runs anything between
    the two awaits, so one await point models both. *)

From S2P Require Import Prelude JsValue.
Import Js.
Open Scope string_scope.

Module Fetch.

Inductive method : Type := GET | POST.

(** A request: method, path under the configured [baseUrl], query
    parameters, and the JSON body as the backend reads it (the value
    after [JSON.stringify]). *)
Record request : Type := mk_request {
  req_method : method;
  req_path : string;
  req_query : list (string * string);
  req_body : option jval
}.

(** A resolved [fetch]: [res.ok] and the result of [await res.json()]. *)
Record response : Type := mk_response {
  ok : bool;
  json : except jval
}.

Inductive outcome : Type :=
| Rejected (e : js_error)
| Responded (r : response).

(** [fetch(url, { method: 'POST', headers: {...}, body: JSON.stringify(body) })] *)
Definition post (path : string) (body : jval) : request :=
  mk_request POST path [] (Some (wire body)).

(** [const res = await fetch(...); const data = await res.json()]: the
    pair [(res.ok, data)], or the exception either await throws. *)
Definition response_json (o : outcome) : except (bool * jval) :=
  match o with
  | Rejected e => Throw e
  | Responded r => bind (json r) (fun d => Ok (ok r, d))
  end.

Section Tasks.
Context {S : Type}.

Inductive task : Type :=
| Done
| Act (f : S -> S) (k : task)
| Await (r : request) (k : outcome -> task).

(** The synchronous segment at the head of a task: its updates applied,
    and what remains ([Done] or an [Await]). *)
Fixpoint settle (t : task) (s : S) : S * task :=
  match t with
  | Done => (s, Done)
  | Act f k => settle k (f s)
  | Await r k => (s, Await r k)
  end.

(** The whole task against a backend, with no other handler running in
    between: the final state and the requests issued, in order. *)
Fixpoint run (backend : request -> outcome) (t : task) (s : S) : S * list request :=
  match t with
  | Done => (s, [])
  | Act f k => run backend k (f s)
  | Await r k =>
      let '(s', rs) := run backend (k (backend r)) s in (s', r :: rs)
  end.

(** A task has stopped when its head is not an update: it is finished or
    waiting for a request. *)
Definition suspended (t : task) : bool :=
  match t with Act _ _ => false | _ => true end.

(** Every synchronous update a task may still perform, along every
    outcome of its awaits, satisfies [Q]. *)
Inductive task_all (Q : (S -> S) -> Prop) : task -> Prop :=
| task_all_done : task_all Q Done
| task_all_act (f : S -> S) (k : task) : Q f -> task_all Q k -> task_all Q (Act f k)
| task_all_await (r : request) (k : outcome -> task) :
    (forall o, task_all Q (k o)) -> task_all Q (Await r k).

End Tasks.

Arguments task : clear implicits.

(** ** Lemmas *)

Lemma settle_suspended {S} (t : task S) (s : S) : suspended (settle t s).2 = true.
Proof. revert s. induction t; intros s; simpl; auto. Qed.

(** Running a task is running its synchronous head, then the rest. *)
Lemma run_settle {S} (b : request -> outcome) (t : task S) (s : S) :
  run b t s = run b (settle t s).2 (settle t s).1.
Proof. revert s. induction t; intros s; simpl; auto. Qed.

(** A predicate kept by every update of a task is kept by its
    synchronous head, and the rest of the task still only performs such
    updates. *)
Lemma settle_all {S} (Q : (S -> S) -> Prop) (P : S -> Prop) (t : task S) (s : S) :
  (forall f, Q f -> forall x, P x -> P (f x)) ->
  task_all Q t -> P s -> P (settle t s).1 /\ task_all Q (settle t s).2.
Proof.
  intros HQ Ht. revert s. induction Ht as [|f k Hf Hk IH|r k Hk IH]; intros s Hs; simpl.
  - split; [done|constructor].
  - apply IH. by apply (HQ f Hf).
  - split; [done|by constructor].
Qed.

Lemma task_all_impl {S} (Q Q' : (S -> S) -> Prop) (t : task S) :
  (forall f, Q f -> Q' f) -> task_all Q t -> task_all Q' t.
Proof. intros HQ Ht. induction Ht; constructor; auto. Qed.

End Fetch.
