(* ===== verification/Hooks.v ===== *)
(** * The React state hooks the async handlers write

    [App] keeps its state in [useState] hooks (App.jsx 14-19).  The
    handlers that await the backend ([checkout], [loadProducts]) only
    call the setters of four of them: [cart], [message], [products] and
    [loading].  [Hooks] is the interface those handlers are written
    against: one getter and one setter per hook, indexed by [hook]; the
    class [HooksLaws] states what React guarantees of independent hooks
    (a setter sets its own hook and leaves the others alone).  The
    handlers' theorems are proved against the interface; the app state
    of [App.v] is an instance that discharges the laws.

    React applies the updates of one synchronous segment together at the
    next render; the handlers never read a hook after setting it in the
    same segment (they read the values captured by their closure), so
    applying each update at once is observationally the same. *)

From S2P Require Import Prelude JsValue Cart.
Import Js CartStore.

(** The hooks of [App] (App.jsx 14-19) as a record, with its initial
    value. *)
Module AppState.

Record app_state : Type := mk_app {
  route : string;
  products : jval;
  category : string;
  cart : list line;
  loading : bool;
  message : string
}.

(** [useState('home')], [useState([])], [useState('all')], [useState([])],
    [useState(false)], [useState('')] *)
Definition initial : app_state := mk_app "home" (JArr []) "all" [] false "".

End AppState.

Module ReactState.

Inductive hook : Type := HCart | HMessage | HProducts | HLoading.

#[export] Instance hook_eq_dec : EqDecision hook.
Proof. solve_decision. Defined.

Definition hook_type (h : hook) : Type :=
  match h with
  | HCart => list line
  | HMessage => string
  | HProducts => jval
  | HLoading => bool
  end.

Class Hooks (S : Type) := {
  hget : forall h : hook, S -> hook_type h;
  hset : forall h : hook, hook_type h -> S -> S
}.

Class HooksLaws (S : Type) `{Hooks S} := {
  hget_hset_eq : forall h v s, hget h (hset h v s) = v;
  hget_hset_ne : forall h h' v s, h <> h' -> hget h' (hset h v s) = hget h' s
}.

Section Setters.
Context {S : Type} `{Hooks S}.

(** [setCart] (App.jsx 17) *)
Definition setCart (c : list line) : S -> S := hset HCart c.
(** [setMessage] (App.jsx 19) *)
Definition setMessage (m : string) : S -> S := hset HMessage m.
(** [setProducts] (App.jsx 15) *)
Definition setProducts (v : jval) : S -> S := hset HProducts v.
(** [setLoading] (App.jsx 18) *)
Definition setLoading (b : bool) : S -> S := hset HLoading b.

Definition getCart (s : S) : list line := hget HCart s.
Definition getMessage (s : S) : string := hget HMessage s.
Definition getProducts (s : S) : jval := hget HProducts s.
Definition getLoading (s : S) : bool := hget HLoading s.

End Setters.


#[export] Instance app_hooks : Hooks AppState.app_state := {
  hget h s := match h as h' return hook_type h' with
              | HCart => AppState.cart s | HMessage => AppState.message s
              | HProducts => AppState.products s | HLoading => AppState.loading s
              end;
  hset h := match h as h' return hook_type h' -> AppState.app_state -> AppState.app_state with
            | HCart => fun v s => AppState.mk_app (AppState.route s) (AppState.products s) (AppState.category s) v (AppState.loading s) (AppState.message s)
            | HMessage => fun v s => AppState.mk_app (AppState.route s) (AppState.products s) (AppState.category s) (AppState.cart s) (AppState.loading s) v
            | HProducts => fun v s => AppState.mk_app (AppState.route s) v (AppState.category s) (AppState.cart s) (AppState.loading s) (AppState.message s)
            | HLoading => fun v s => AppState.mk_app (AppState.route s) (AppState.products s) (AppState.category s) (AppState.cart s) v (AppState.message s)
            end
}.


(** ** Lemmas: reading a hook after a setter *)

Section Laws.
Context {S : Type} `{HooksLaws S}.

Lemma hget_setCart (h : hook) c s :
  hget h (setCart c s) = match h as h' return hook_type h' -> hook_type h' with
                         | HCart => fun _ => c | _ => fun v => v end (hget h s).
Proof.
  unfold setCart. destruct h; [apply hget_hset_eq|apply hget_hset_ne; discriminate..].
Qed.

Lemma hget_setMessage (h : hook) m s :
  hget h (setMessage m s) = match h as h' return hook_type h' -> hook_type h' with
                            | HMessage => fun _ => m | _ => fun v => v end (hget h s).
Proof.
  unfold setMessage.
  destruct h; [apply hget_hset_ne; discriminate|apply hget_hset_eq|apply hget_hset_ne; discriminate..].
Qed.

Lemma hget_setProducts (h : hook) v s :
  hget h (setProducts v s) = match h as h' return hook_type h' -> hook_type h' with
                             | HProducts => fun _ => v | _ => fun w => w end (hget h s).
Proof.
  unfold setProducts.
  destruct h; [apply hget_hset_ne; discriminate..|apply hget_hset_eq|apply hget_hset_ne; discriminate].
Qed.

Lemma hget_setLoading (h : hook) b s :
  hget h (setLoading b s) = match h as h' return hook_type h' -> hook_type h' with
                            | HLoading => fun _ => b | _ => fun w => w end (hget h s).
Proof.
  unfold setLoading. destruct h; [apply hget_hset_ne; discriminate..|apply hget_hset_eq].
Qed.

End Laws.

#[export] Instance app_hooks_laws : HooksLaws AppState.app_state.
Proof. split; intros [] ; try intros []; intros; simpl; done. Qed.

End ReactState.

(** Reading [getCart], [getMessage], [getProducts] or [getLoading] through a chain of
    setters: each getter of a setter's result reduces by the lemmas
    above. *)
Ltac simpl_hooks :=
  unfold ReactState.getCart, ReactState.getMessage, ReactState.getProducts, ReactState.getLoading;
  repeat progress (rewrite ?ReactState.hget_setCart, ?ReactState.hget_setMessage,
                           ?ReactState.hget_setProducts, ?ReactState.hget_setLoading; simpl).
