(* ===== verification/Checkout.v ===== *)
(** * The checkout orchestrator: [checkout] of App.jsx (lines 56-94)

    [checkout] reads the [cart] its closure captured when the button was
    clicked.  If it is empty it returns at once; otherwise it clears the
    message and awaits three requests in sequence, each built from the
    answer to the previous one: the order (whose answer carries
    [order_id]), the payment intent for that order (whose answer carries
    [reference]), and the confirmation of that order with that reference
    and [success: true].  A failed step throws an [Error] whose message
    is the backend's [detail] or the step's fallback; the single [catch]
    shows [e.message] whatever the exception was.  Full success shows a
    fixed message and clears the cart.

    The task is written against the [Hooks] interface; its theorems hold
    for every lawful instance.  [verdict] and [apply_verdict] are the
    contract the spec states (section 4.3): the cart is cleared with a
    fixed confirmation, or kept with a failure message. *)

From S2P Require Import Prelude JsValue Cart Fetch Hooks.
Import Js CartStore Fetch ReactState.
Open Scope string_scope.

Module Checkout.

(** [{ product_id: i._id, title: i.title, price: i.price, qty: i.qty }] *)
Definition order_item (i : line) : jval :=
  JObj [("product_id", _id i); ("title", title i); ("price", price i); ("qty", JNum (qty i))].

(** The body of [POST /api/orders] (App.jsx 63-67). *)
Definition order_body (c : list line) : jval :=
  JObj [("items", JArr (map order_item c));
        ("customer_name", JStr "Guest");
        ("customer_email", JStr "guest@example.com")].

Definition order_req (c : list line) : request := post "/api/orders" (order_body c).

(** The backend's reading of an order (spec section 6: [{items:
    CartLine[], customer_name, customer_email}]): each item's
    [product_id], [title], [price] and integral [qty]. *)
Definition decode_item (v : jval) : option line :=
  match v with
  | JObj fs =>
      match field "product_id" fs, field "title" fs, field "price" fs, field "qty" fs with
      | Some pid, Some t, Some pr, Some (JNum q) => Some (mk_line pid t pr q)
      | _, _, _, _ => None
      end
  | _ => None
  end.

Definition decode_order (body : jval) : option (list line) :=
  match body with
  | JObj fs => match field "items" fs with Some (JArr xs) => mapM decode_item xs | _ => None end
  | _ => None
  end.

Definition intent_req (oid : jval) : request :=
  post "/api/payments/create-intent" (JObj [("order_id", oid)]).

Definition confirm_req (oid ref : jval) : request :=
  post "/api/payments/confirm"
       (JObj [("order_id", oid); ("success", JBool true); ("reference", ref)]).

(** [if (!res.ok) throw new Error(data.detail || fallback)] *)
Definition check_ok (fallback : string) (okb : bool) (d : jval) : except unit :=
  if okb then Ok tt
  else bind (get d "detail") (fun det => Throw (new_error (js_or det (JStr fallback)))).

(** The order step (App.jsx 60-70, and the read of [orderData.order_id]
    that builds the next body, line 75). *)
Definition order_result (o : outcome) : except jval :=
  bind (response_json o) (fun '(okb, d) =>
  bind (check_ok "Failed to create order" okb d) (fun _ => get d "order_id")).

(** The payment-intent step (App.jsx 72-78, and the read of
    [piData.reference] of line 80). *)
Definition intent_result (o : outcome) : except jval :=
  bind (response_json o) (fun '(okb, d) =>
  bind (check_ok "Failed to start payment" okb d) (fun _ => get d "reference")).

(** The confirmation step (App.jsx 82-88). *)
Definition confirm_result (o : outcome) : except unit :=
  bind (response_json o) (fun '(okb, d) => check_ok "Payment confirmation failed" okb d).

Definition success_message : string := "Payment successful! Order confirmed.".

Definition initiated_message (ref : jval) : string :=
  "Payment initiated. Reference: " ++ to_string ref.

(** What [new Error(detail || fallback).message] shows. *)
Definition detail_message (det : jval) (fallback : string) : string :=
  if truthy det then to_string det else fallback.

Section Handler.
Context {S : Type} `{Hooks S}.

(** [catch (e) { setMessage(e.message) }] *)
Definition fail (e : js_error) : task S := Act (setMessage (message e)) Done.

(** [checkout] (App.jsx 56-94), on the cart its closure captured. *)
Definition checkout (c : list line) : task S :=
  if Nat.eqb (length c) 0 then Done else
  Act (setMessage "")
  (Await (order_req c) (fun o1 =>
   match order_result o1 with
   | Throw e => fail e
   | Ok oid =>
     Await (intent_req oid) (fun o2 =>
     match intent_result o2 with
     | Throw e => fail e
     | Ok ref =>
       Act (setMessage (initiated_message ref))
       (Await (confirm_req oid ref) (fun o3 =>
        match confirm_result o3 with
        | Throw e => fail e
        | Ok _ => Act (setMessage success_message) (Act (setCart []) Done)
        end))
     end)
   end)).

(** The spec's contract for a checkout of a non-empty cart. *)
Inductive verdict : Type := Paid | Failed (msg : string).

Definition apply_verdict (v : verdict) (s : S) : S :=
  match v with
  | Paid => setCart [] (setMessage success_message s)
  | Failed m => setMessage m s
  end.

End Handler.

(** The verdict section 4.3 assigns to a checkout of [c] against the
    backend [b]: the three calls in sequence, each sent with what the
    previous one answered; [Paid] when all three are accepted, and
    otherwise the failure message of the first call that is not. *)
Definition expected_verdict (b : request -> outcome) (c : list line) : verdict :=
  match order_result (b (order_req c)) with
  | Throw e => Failed (message e)
  | Ok oid =>
    match intent_result (b (intent_req oid)) with
    | Throw e => Failed (message e)
    | Ok ref =>
      match confirm_result (b (confirm_req oid ref)) with
      | Throw e => Failed (message e)
      | Ok _ => Paid
      end
    end
  end.

(** ** Lemmas *)

(** C7: Round trip of the order body: when no line holds [undefined]
    in its id, title or price, the backend decodes the body it receives
    (after [JSON.stringify]) back to exactly the cart that was ordered,
    line by line and in order. *)
Theorem order_body_roundtrip (c : list line) :
  Forall (fun i => wire_stable (_id i) && wire_stable (title i) && wire_stable (price i) = true) c ->
  (req_body (order_req c) ≫= decode_order) = Some c.
Proof.
  intros Hc. unfold order_req, post. cbn [req_body]. rewrite wire_stable_id.
  - simpl. induction c as [|i c IH]; [done|]. inversion Hc as [|? ? _ Hc']; subst.
    simpl. rewrite (IH Hc') by done. by destruct i.
  - simpl. rewrite !andb_true_r. induction c as [|i c IH]; [done|].
    inversion Hc as [|? ? Hi Hc']; subst. simpl. rewrite !andb_true_r.
    apply andb_true_iff in Hi as [Hi Hp]. apply andb_true_iff in Hi as [Hi Ht].
    by rewrite Hi, Ht, Hp, IH.
Qed.

(** A step goes on only after an [ok] answer. *)
Lemma check_ok_ok (fallback : string) (okb : bool) (d : jval) (u : unit) :
  check_ok fallback okb d = Ok u -> okb = true.
Proof. unfold check_ok. destruct okb, (get d "detail"); done. Qed.

(** The order id the checkout goes on with is the [order_id] field of an
    [ok] answer to the order, and the reference is the [reference] field
    of an [ok] answer to the intent. *)
Lemma order_result_ok (o : outcome) (oid : jval) :
  order_result o = Ok oid ->
  exists d, response_json o = Ok (true, d) /\ get d "order_id" = Ok oid.
Proof.
  unfold order_result. destruct (response_json o) as [[okb d]|]; simpl; [|done].
  destruct (check_ok _ okb d) as [u|] eqn:E; simpl; [|done].
  apply check_ok_ok in E as ->. eauto.
Qed.

Lemma intent_result_ok (o : outcome) (ref : jval) :
  intent_result o = Ok ref ->
  exists d, response_json o = Ok (true, d) /\ get d "reference" = Ok ref.
Proof.
  unfold intent_result. destruct (response_json o) as [[okb d]|]; simpl; [|done].
  destruct (check_ok _ okb d) as [u|] eqn:E; simpl; [|done].
  apply check_ok_ok in E as ->. eauto.
Qed.

Section Proofs.
Context {S : Type} `{HooksLaws S}.

(** The run of a checkout of a non-empty cart, step by step. *)
Lemma checkout_run (b : request -> outcome) (c : list line) (s : S) :
  c <> [] ->
  run b (checkout c) s =
  let s0 := setMessage "" s in
  match order_result (b (order_req c)) with
  | Throw e => (setMessage (message e) s0, [order_req c])
  | Ok oid =>
    match intent_result (b (intent_req oid)) with
    | Throw e => (setMessage (message e) s0, [order_req c; intent_req oid])
    | Ok ref =>
      let s1 := setMessage (initiated_message ref) s0 in
      match confirm_result (b (confirm_req oid ref)) with
      | Throw e => (setMessage (message e) s1, [order_req c; intent_req oid; confirm_req oid ref])
      | Ok _ => (setCart [] (setMessage success_message s1),
                 [order_req c; intent_req oid; confirm_req oid ref])
      end
    end
  end.
Proof.
  intros Hc. destruct c as [|x c]; [done|]. unfold checkout. simpl.
  destruct (order_result (b (order_req (x :: c)))) as [oid|e]; simpl; [|done].
  destruct (intent_result (b (intent_req oid))) as [ref|e]; simpl; [|done].
  by destruct (confirm_result (b (confirm_req oid ref))).
Qed.

Lemma check_ok_false (fallback : string) (d det : jval) :
  get d "detail" = Ok det ->
  check_ok fallback false d = Throw (new_error (js_or det (JStr fallback))).
Proof. intros Hd. unfold check_ok. by rewrite Hd. Qed.

(** C15: A checkout leaves the state exactly as it was and issues no
    request if and only if the captured cart is empty. *)
Theorem checkout_no_request_iff_empty (b : request -> outcome) (c : list line) (s : S) :
  run b (checkout c) s = (s, []) <-> c = [].
Proof.
  split.
  - intros Hr. destruct (decide (c = [])) as [|Hc]; [done|].
    apply (f_equal snd) in Hr. rewrite (checkout_run b c s Hc) in Hr. simpl in Hr.
    destruct (order_result _) as [oid|]; [|done].
    destruct (intent_result _) as [ref|]; [|done].
    by destruct (confirm_result _).
  - intros ->. done.
Qed.

(** C6: When the three calls answer [ok] with an [order_id] and then a
    [reference], checkout sends the order, then the intent for that
    order id, then the confirmation of that order id with that
    reference, and ends with an empty cart and the fixed success
    message; the interim message showed the reference. *)
Theorem checkout_success (b : request -> outcome) (c : list line) (s : S)
    (d1 d2 d3 oid ref : jval) :
  c <> [] ->
  b (order_req c) = Responded (mk_response true (Ok d1)) -> get d1 "order_id" = Ok oid ->
  b (intent_req oid) = Responded (mk_response true (Ok d2)) -> get d2 "reference" = Ok ref ->
  b (confirm_req oid ref) = Responded (mk_response true (Ok d3)) ->
  run b (checkout c) s =
  (setCart [] (setMessage success_message
                 (setMessage (initiated_message ref) (setMessage "" s))),
   [order_req c; intent_req oid; confirm_req oid ref]).
Proof.
  intros Hc H1 Ho H2 Hr H3. rewrite (checkout_run b c s Hc).
  unfold order_result, intent_result, confirm_result.
  rewrite H1. simpl. rewrite Ho. simpl. rewrite H2. simpl. rewrite Hr. simpl.
  by rewrite H3.
Qed.

Lemma message_detail (det : jval) (fallback : string) :
  message (new_error (js_or det (JStr fallback))) = detail_message det fallback.
Proof.
  unfold js_or, detail_message. destruct (truthy det) eqn:E; [|done].
  destruct det; simpl in E; try discriminate; done.
Qed.

(** C4: Checkout of a non-empty cart refines the spec's contract: every
    hook ends exactly as if the verdict of section 4.3 had been applied
    at once to the state the click saw.  When the three calls are
    accepted the cart is emptied and the fixed confirmation shown;
    otherwise the cart is untouched and the message is that of the
    first failing call; no other hook changes, and the interim
    messages leave no trace. *)
Theorem checkout_contract (b : request -> outcome) (c : list line) (s : S) :
  c <> [] ->
  forall h, hget h (run b (checkout c) s).1 = hget h (apply_verdict (expected_verdict b c) s).
Proof.
  intros Hc. rewrite (checkout_run b c s Hc). unfold expected_verdict.
  destruct (order_result _) as [oid|e]; [|intros []; simpl_hooks; done].
  destruct (intent_result _) as [ref|e]; [|intros []; simpl_hooks; done].
  destruct (confirm_result _); intros []; simpl_hooks; done.
Qed.

Lemma checkout_order_error_run (b : request -> outcome) (c : list line) (s : S) (d det : jval) :
  c <> [] ->
  b (order_req c) = Responded (mk_response false (Ok d)) -> get d "detail" = Ok det ->
  run b (checkout c) s =
  (setMessage (detail_message det "Failed to create order") (setMessage "" s), [order_req c]).
Proof.
  intros Hc H1 Hd. rewrite (checkout_run b c s Hc).
  unfold order_result, check_ok. rewrite H1. simpl. rewrite Hd. simpl.
  by rewrite message_detail.
Qed.

(** C16: When the order call answers with an error status and a body
    whose [detail] is [det], the checkout stops after that one request,
    keeps the cart, and shows [det] when it is truthy and
    ["Failed to create order"] otherwise. *)
Theorem checkout_order_fails (b : request -> outcome) (c : list line) (s : S) (d det : jval) :
  c <> [] ->
  b (order_req c) = Responded (mk_response false (Ok d)) -> get d "detail" = Ok det ->
  getCart (run b (checkout c) s).1 = getCart s /\
  getMessage (run b (checkout c) s).1 = detail_message det "Failed to create order" /\
  (run b (checkout c) s).2 = [order_req c].
Proof.
  intros Hc H1 Hd. rewrite (checkout_order_error_run b c s d det Hc H1 Hd).
  simpl_hooks. done.
Qed.

(** C17: When the order succeeds but the payment-intent call answers
    with an error status, the checkout stops after the two requests,
    keeps the cart, and shows the intent's [detail] or
    ["Failed to start payment"]. *)
Theorem checkout_intent_fails (b : request -> outcome) (c : list line) (s : S)
    (d1 d2 oid det : jval) :
  c <> [] ->
  b (order_req c) = Responded (mk_response true (Ok d1)) -> get d1 "order_id" = Ok oid ->
  b (intent_req oid) = Responded (mk_response false (Ok d2)) -> get d2 "detail" = Ok det ->
  getCart (run b (checkout c) s).1 = getCart s /\
  getMessage (run b (checkout c) s).1 = detail_message det "Failed to start payment" /\
  (run b (checkout c) s).2 = [order_req c; intent_req oid].
Proof.
  intros Hc H1 Ho H2 Hd. rewrite (checkout_run b c s Hc).
  unfold order_result, intent_result, check_ok. rewrite H1. simpl. rewrite Ho. simpl.
  rewrite H2. simpl. rewrite Hd. simpl. rewrite message_detail. simpl_hooks. done.
Qed.

(** C18: When order and intent succeed but the confirmation answers with
    an error status, the checkout has sent all three requests, keeps the
    cart, and the interim reference message is replaced by the
    confirmation's [detail] or ["Payment confirmation failed"]. *)
Theorem checkout_confirm_fails (b : request -> outcome) (c : list line) (s : S)
    (d1 d2 d3 oid ref det : jval) :
  c <> [] ->
  b (order_req c) = Responded (mk_response true (Ok d1)) -> get d1 "order_id" = Ok oid ->
  b (intent_req oid) = Responded (mk_response true (Ok d2)) -> get d2 "reference" = Ok ref ->
  b (confirm_req oid ref) = Responded (mk_response false (Ok d3)) -> get d3 "detail" = Ok det ->
  getCart (run b (checkout c) s).1 = getCart s /\
  getMessage (run b (checkout c) s).1 = detail_message det "Payment confirmation failed" /\
  (run b (checkout c) s).2 = [order_req c; intent_req oid; confirm_req oid ref].
Proof.
  intros Hc H1 Ho H2 Hr H3 Hd. rewrite (checkout_run b c s Hc).
  unfold order_result, intent_result, confirm_result, check_ok.
  rewrite H1. simpl. rewrite Ho. simpl. rewrite H2. simpl. rewrite Hr. simpl.
  rewrite H3. simpl. rewrite Hd. simpl. rewrite message_detail. simpl_hooks. done.
Qed.

(** C19: An exception of [fetch] or of [res.json()] at the order step
    (a network failure, a body that is not JSON) reaches the user as
    its own [e.message], not as a fixed generic message, and the cart
    is kept. *)
Theorem checkout_exception_verbatim (b : request -> outcome) (c : list line) (s : S)
    (e : js_error) :
  c <> [] -> response_json (b (order_req c)) = Throw e ->
  getCart (run b (checkout c) s).1 = getCart s /\
  getMessage (run b (checkout c) s).1 = message e.
Proof.
  intros Hc He. rewrite (checkout_run b c s Hc).
  unfold order_result. rewrite He. simpl. simpl_hooks. done.
Qed.

(** C8: A checkout sends at most three requests, in a chain: the first
    is the order of the captured cart; a second is sent only after an
    [ok] answer to the order, and is the payment intent for that
    answer's [order_id]; a third only after an [ok] answer to that
    intent, and is the confirmation of the same [order_id] with that
    answer's [reference]. *)
Theorem checkout_requests_bounded (b : request -> outcome) (c : list line) (s : S) :
  let rs := (run b (checkout c) s).2 in
  (length rs <= 3)%nat /\
  (c <> [] -> rs !! 0%nat = Some (order_req c)) /\
  (forall r, rs !! 1%nat = Some r ->
     exists d oid, response_json (b (order_req c)) = Ok (true, d) /\
       get d "order_id" = Ok oid /\ r = intent_req oid) /\
  (forall r, rs !! 2%nat = Some r ->
     exists d1 d2 oid ref, response_json (b (order_req c)) = Ok (true, d1) /\
       get d1 "order_id" = Ok oid /\
       response_json (b (intent_req oid)) = Ok (true, d2) /\
       get d2 "reference" = Ok ref /\ r = confirm_req oid ref).
Proof.
  destruct (decide (c = [])) as [->|Hc].
  { cbn. repeat split; intros; simplify_eq/=; lia. }
  rewrite (checkout_run b c s Hc). cbv zeta.
  destruct (order_result _) as [oid|e] eqn:Eo;
    [apply order_result_ok in Eo as (d1 & Ho1 & Ho2)|].
  2: { cbn. repeat split; intros; simplify_eq/=; lia. }
  destruct (intent_result _) as [ref|e] eqn:Ei;
    [apply intent_result_ok in Ei as (d2 & Hi1 & Hi2)|].
  2: { cbn. repeat split; intros; simplify_eq/=; eauto; lia. }
  destruct (confirm_result _); cbn; repeat split; intros; simplify_eq/=; eauto 10; lia.
Qed.

End Proofs.

(** ** Witnesses, on the app state of [App.jsx] with one ring in the cart
    and backends that answer each path as the comments say. *)

#[local] Abbreviation ring_line := (mk_line (JStr "r1") (JStr "Ring") (JNum 100) 2).
#[local] Abbreviation s_ring := (AppState.mk_app "cart" (JArr []) "all" [ring_line] false "").
(* Every call answers ok: an order id, then a reference, then a receipt. *)
#[local] Abbreviation paying_backend := (fun r : request =>
  if String.eqb (req_path r) "/api/orders"
  then Responded (mk_response true (Ok (JObj [("order_id", JStr "o1")])))
  else if String.eqb (req_path r) "/api/payments/create-intent"
  then Responded (mk_response true (Ok (JObj [("reference", JStr "ref-9")])))
  else Responded (mk_response true (Ok (JObj [("status", JStr "paid")])))).
(* The order is refused: out of stock. *)
#[local] Abbreviation out_of_stock := (fun _ : request =>
  Responded (mk_response false (Ok (JObj [("detail", JStr "Out of stock")])))).
(* The order succeeds, the payment-intent service is down. *)
#[local] Abbreviation intent_down := (fun r : request =>
  if String.eqb (req_path r) "/api/orders"
  then Responded (mk_response true (Ok (JObj [("order_id", JStr "o1")])))
  else Responded (mk_response false (Ok (JObj [("detail", JStr "Gateway down")])))).
(* Order and intent succeed, the confirmation fails with a null detail. *)
#[local] Abbreviation failing_payments := (fun r : request =>
  if String.eqb (req_path r) "/api/orders"
  then Responded (mk_response true (Ok (JObj [("order_id", JStr "o1")])))
  else if String.eqb (req_path r) "/api/payments/create-intent"
  then Responded (mk_response true (Ok (JObj [("reference", JStr "ref-9")])))
  else Responded (mk_response false (Ok (JObj [("detail", JNull)])))).

Lemma checkout_no_request_iff_empty_witness :
  run out_of_stock (checkout []) s_ring = (s_ring, []) <-> @nil line = [].
Proof. apply checkout_no_request_iff_empty. Defined.

Lemma checkout_requests_bounded_witness :
  (length (run paying_backend (checkout [ring_line]) s_ring).2 <= 3)%nat /\
  ([ring_line] <> [] ->
     (run paying_backend (checkout [ring_line]) s_ring).2 !! 0%nat = Some (order_req [ring_line])) /\
  (forall r, (run paying_backend (checkout [ring_line]) s_ring).2 !! 1%nat = Some r ->
     exists d oid, response_json (paying_backend (order_req [ring_line])) = Ok (true, d) /\
       get d "order_id" = Ok oid /\ r = intent_req oid) /\
  (forall r, (run paying_backend (checkout [ring_line]) s_ring).2 !! 2%nat = Some r ->
     exists d1 d2 oid ref, response_json (paying_backend (order_req [ring_line])) = Ok (true, d1) /\
       get d1 "order_id" = Ok oid /\
       response_json (paying_backend (intent_req oid)) = Ok (true, d2) /\
       get d2 "reference" = Ok ref /\ r = confirm_req oid ref).
Proof. exact (checkout_requests_bounded paying_backend [ring_line] s_ring). Defined.

Lemma order_body_roundtrip_witness :
  (req_body (order_req [ring_line; mk_line (JStr "e2") (JStr "Earrings") (JNum 250) 1]) ≫= decode_order)
  = Some [ring_line; mk_line (JStr "e2") (JStr "Earrings") (JNum 250) 1].
Proof. apply order_body_roundtrip. repeat constructor. Defined.

Lemma checkout_success_witness :
  run paying_backend (checkout [ring_line]) s_ring =
  (setCart [] (setMessage success_message
     (setMessage (initiated_message (JStr "ref-9")) (setMessage "" s_ring))),
   [order_req [ring_line]; intent_req (JStr "o1"); confirm_req (JStr "o1") (JStr "ref-9")]).
Proof.
  apply (checkout_success _ _ _ (JObj [("order_id", JStr "o1")])
           (JObj [("reference", JStr "ref-9")]) (JObj [("status", JStr "paid")]));
    try reflexivity. discriminate.
Defined.

Lemma checkout_contract_witness :
  hget HCart (run out_of_stock (checkout [ring_line]) s_ring).1 =
    hget HCart (apply_verdict (expected_verdict out_of_stock [ring_line]) s_ring) /\
  hget HMessage (run out_of_stock (checkout [ring_line]) s_ring).1 =
    hget HMessage (apply_verdict (expected_verdict out_of_stock [ring_line]) s_ring).
Proof. split; apply checkout_contract; discriminate. Defined.

Lemma checkout_order_fails_witness :
  getCart (run out_of_stock (checkout [ring_line]) s_ring).1 = getCart s_ring /\
  getMessage (run out_of_stock (checkout [ring_line]) s_ring).1 =
    detail_message (JStr "Out of stock") "Failed to create order" /\
  (run out_of_stock (checkout [ring_line]) s_ring).2 = [order_req [ring_line]].
Proof.
  apply (checkout_order_fails _ _ _ (JObj [("detail", JStr "Out of stock")])); try reflexivity.
  discriminate.
Defined.

Lemma checkout_intent_fails_witness :
  getCart (run intent_down (checkout [ring_line]) s_ring).1 = getCart s_ring /\
  getMessage (run intent_down (checkout [ring_line]) s_ring).1 =
    detail_message (JStr "Gateway down") "Failed to start payment" /\
  (run intent_down (checkout [ring_line]) s_ring).2 =
    [order_req [ring_line]; intent_req (JStr "o1")].
Proof.
  apply (checkout_intent_fails _ _ _ (JObj [("order_id", JStr "o1")])
           (JObj [("detail", JStr "Gateway down")])); try reflexivity.
  discriminate.
Defined.

Lemma checkout_confirm_fails_witness :
  getCart (run failing_payments (checkout [ring_line]) s_ring).1 = getCart s_ring /\
  getMessage (run failing_payments (checkout [ring_line]) s_ring).1 =
    detail_message JNull "Payment confirmation failed" /\
  (run failing_payments (checkout [ring_line]) s_ring).2 =
    [order_req [ring_line]; intent_req (JStr "o1"); confirm_req (JStr "o1") (JStr "ref-9")].
Proof.
  apply (checkout_confirm_fails _ _ _ (JObj [("order_id", JStr "o1")])
           (JObj [("reference", JStr "ref-9")]) (JObj [("detail", JNull)]));
    try reflexivity. discriminate.
Defined.

Lemma checkout_exception_verbatim_witness :
  getCart (run (fun _ => Rejected (TypeError "Failed to fetch")) (checkout [ring_line]) s_ring).1
    = getCart s_ring /\
  getMessage (run (fun _ => Rejected (TypeError "Failed to fetch")) (checkout [ring_line]) s_ring).1
    = "Failed to fetch".
Proof. apply (checkout_exception_verbatim _ _ _ (TypeError "Failed to fetch")); [discriminate|reflexivity]. Defined.

End Checkout.
