(* ===== verification/Catalog.v ===== *)
(** * The catalog fetcher: [loadProducts], its effect, and the [filtered]
    memo of App.jsx

    [loadProducts(cat)] (App.jsx 21-34) sets the loading flag, requests
    [GET /api/products], adding [?category=cat] when [cat] is truthy and
    not ['all'], stores whatever [res.json()] parses (it never looks at
    [res.ok]), shows a fixed message when the request or the parse
    throws, and clears the loading flag in [finally].  The effect of
    lines 36-38 calls it with [undefined] for ['all'] each time the
    category changes.  The memo [filtered] (lines 96-99) re-filters the
    stored list by the current category, and the grid (lines 128-134,
    151-157) renders it when not loading.

    Rendering is modelled as far as it can throw: [products.filter] on a
    value that is not an array, a property read on a [null] product, and
    [filtered.map] on a value that is not an array all throw during
    render, which unmounts the whole application (there is no error
    boundary). *)

From S2P Require Import Prelude JsValue Cart Fetch Hooks.
Import Js Fetch ReactState.
Open Scope string_scope.

Module Catalog.

(** The query of [new URL(`${baseUrl}/api/products`)] after
    [if (cat && cat !== 'all') url.searchParams.set('category', cat)];
    [cat] is [undefined] ([None]) or a string. *)
Definition products_query (cat : option string) : list (string * string) :=
  match cat with
  | Some c => if String.eqb c "" || String.eqb c "all" then [] else [("category", c)]
  | None => []
  end.

Definition products_req (cat : option string) : request :=
  mk_request GET "/api/products" (products_query cat) None.

(** [loadProducts(category === 'all' ? undefined : category)] *)
Definition effect_arg (category : string) : option string :=
  if String.eqb category "all" then None else Some category.

Definition load_error_message : string := "Unable to load products".

Section Handler.
Context {S : Type} `{Hooks S}.

(** What [loadProducts] does once its request settles (App.jsx 26-33). *)
Definition load_settled (o : outcome) : task S :=
  match response_json o with
  | Ok (_, data) => Act (setProducts data) (Act (setLoading false) Done)
  | Throw _ => Act (setMessage load_error_message) (Act (setLoading false) Done)
  end.

(** [loadProducts] (App.jsx 21-34). *)
Definition loadProducts (cat : option string) : task S :=
  Act (setLoading true) (Await (products_req cat) load_settled).

End Handler.

(** [ps.filter((p) => p.category === category)], throwing on the first
    product whose [category] cannot be read. *)
Fixpoint filter_category (category : string) (ps : list jval) : except (list jval) :=
  match ps with
  | [] => Ok []
  | p :: ps' =>
      bind (get p "category") (fun c =>
      bind (filter_category category ps') (fun kept =>
      Ok (if strict_eq c (JStr category) then p :: kept else kept)))
  end.

(** The memo [filtered] (App.jsx 96-99). *)
Definition filtered (category : string) (products : jval) : except jval :=
  if String.eqb category "all" then Ok products
  else match products with
       | JArr ps => bind (filter_category category ps) (fun kept => Ok (JArr kept))
       | _ => Throw (TypeError "products.filter is not a function")
       end.

(** What React accepts as a child: [null], [undefined], booleans,
    numbers and strings, and arrays of children; a plain object throws
    ("Objects are not valid as a React child"). *)
Fixpoint renderable (v : jval) : bool :=
  match v with
  | JObj _ => false
  | JArr xs => forallb renderable xs
  | _ => true
  end.

(** [p.k] on a product the grid renders, [undefined] when it cannot be
    read. *)
Definition prop (p : jval) (k : string) : jval :=
  match get p k with Ok v => v | Throw _ => JUndefined end.

(** A [ProductCard] renders: its [key] reads [p._id], and its body
    renders [product.title], [product.category] and [product.price] as
    children (ProductCard.jsx 10-13). *)
Definition card_ok (p : jval) : bool :=
  negb (nullish p) && renderable (prop p "title") && renderable (prop p "category")
  && renderable (prop p "price").

(** The image slot of a card (ProductCard.jsx 3-7): an [<img>] of
    [product.image] when it is truthy, the "No Image" placeholder
    otherwise. *)
Definition card_image (p : jval) : option jval :=
  let im := prop p "image" in if truthy im then Some im else None.

Definition render_error : js_error := Error "Objects are not valid as a React child".

(** The text React renders for a child: nothing for [null],
    [undefined] and booleans, the number or the string itself, the
    children of an array in order, and an exception for a plain
    object. *)
Fixpoint child_text (v : jval) : except string :=
  match v with
  | JUndefined | JNull | JBool _ => Ok ""
  | JNum n => Ok (pretty n)
  | JStr s => Ok s
  | JArr xs => bind (mapE child_text xs) (fun ts => Ok (String.concat "" ts))
  | JObj _ => Throw render_error
  end.

(** The product grid (App.jsx 128-134): ["Loading..."] while loading,
    otherwise one [ProductCard] per element of [filtered]. *)
Definition grid (loading : bool) (f : jval) : except (list jval) :=
  if loading then Ok []
  else match f with
       | JArr ps => if forallb card_ok ps then Ok ps else Throw render_error
       | _ => Throw (TypeError "filtered.map is not a function")
       end.

(** ** Lemmas *)

(** A child renders exactly when [renderable] says so. *)
Lemma child_text_ok (v : jval) : (exists t, child_text v = Ok t) <-> renderable v = true.
Proof.
  induction v as [| | | | |xs IH|fs _] using jval_ind'; simpl; try (split; [done|by eexists]).
  - assert (H : (exists ts, mapE child_text xs = Ok ts) <-> forallb renderable xs = true).
    { induction xs as [|x xs IHxs]; [split; [done|by eexists]|].
      inversion IH as [|? ? Hx IH']; subst. rewrite mapE_cons_ok, (IHxs IH'), Hx. simpl.
      by rewrite andb_true_iff. }
    rewrite <- H. split.
    + intros [t Ht]. destruct (mapE child_text xs) as [ts|]; [by eexists|discriminate].
    + intros [ts ->]. by eexists.
  - split; [intros [t Ht]; discriminate|discriminate].
Qed.

Section Proofs.
Context {S : Type} `{HooksLaws S}.

Lemma loadProducts_run (b : request -> outcome) (cat : option string) (s : S) :
  run b (loadProducts cat) s =
  match response_json (b (products_req cat)) with
  | Ok (_, data) => (setLoading false (setProducts data (setLoading true s)), [products_req cat])
  | Throw _ => (setLoading false (setMessage load_error_message (setLoading true s)),
                [products_req cat])
  end.
Proof. unfold loadProducts, load_settled. simpl. by destruct (response_json _) as [[? ?]|]. Qed.

Lemma filter_category_spec (category : string) (ps kept : list jval) :
  filter_category category ps = Ok kept ->
  sublist kept ps /\ Forall (fun p => get p "category" = Ok (JStr category)) kept.
Proof.
  revert kept. induction ps as [|p ps IH]; intros kept Hk; simpl in Hk.
  - injection Hk as <-. split; constructor.
  - destruct (get p "category") as [c|] eqn:Hc; [|discriminate]. simpl in Hk.
    destruct (filter_category category ps) as [k|]; [|discriminate]. simpl in Hk.
    destruct (IH k eq_refl) as [Hs Hf].
    destruct (strict_eq c (JStr category)) eqn:E; injection Hk as <-.
    + apply strict_eq_eq in E as ->. split; [by apply sublist_skip|by constructor].
    + split; [by apply sublist_cons|done].
Qed.

(** C20: The request for the effect's argument carries [category=c]
    exactly when the selected category [c] is neither ['all'] nor
    empty: ['silver'] queries [?category=silver], ['all'] queries the
    whole catalog. *)
Theorem catalog_query (c : string) :
  req_query (products_req (effect_arg c)) =
  if String.eqb c "all" || String.eqb c "" then [] else [("category", c)].
Proof.
  unfold products_req, effect_arg, products_query. simpl.
  destruct (String.eqb c "all") eqn:E; destruct (String.eqb c "") eqn:E2;
    simpl; rewrite ?E, ?E2; reflexivity.
Qed.

(** C21: Whatever the backend does, a load sends one request and ends
    with the loading flag cleared ([finally]). *)
Theorem loadProducts_clears_loading (b : request -> outcome) (cat : option string) (s : S) :
  getLoading (run b (loadProducts cat) s).1 = false /\
  (run b (loadProducts cat) s).2 = [products_req cat].
Proof.
  rewrite loadProducts_run. destruct (response_json _) as [[? ?]|]; simpl_hooks; done.
Qed.

(** C22: A request or parse failure keeps the product list and the cart,
    clears the loading flag and shows ["Unable to load products"]. *)
Theorem loadProducts_failure_keeps (b : request -> outcome) (cat : option string) (s : S)
    (e : js_error) :
  response_json (b (products_req cat)) = Throw e ->
  getProducts (run b (loadProducts cat) s).1 = getProducts s /\
  getCart (run b (loadProducts cat) s).1 = getCart s /\
  getMessage (run b (loadProducts cat) s).1 = load_error_message.
Proof. intros He. rewrite loadProducts_run, He. simpl_hooks. done. Qed.

(** C23: Any parsed answer replaces the product list wholesale, whether
    or not the response was [ok]; the message is left alone. *)
Theorem loadProducts_stores_body (b : request -> outcome) (cat : option string) (s : S)
    (okb : bool) (data : jval) :
  response_json (b (products_req cat)) = Ok (okb, data) ->
  getProducts (run b (loadProducts cat) s).1 = data /\
  getMessage (run b (loadProducts cat) s).1 = getMessage s.
Proof. intros Hd. rewrite loadProducts_run, Hd. simpl_hooks. done. Qed.

(** C25: Under a category other than ['all'], every product the memo
    keeps has exactly that category, and the kept products appear in
    the order of the stored list, whatever that list is. *)
Theorem filtered_sound (category : string) (v : jval) (kept : list jval) :
  String.eqb category "all" = false ->
  filtered category v = Ok (JArr kept) ->
  exists ps, v = JArr ps /\ sublist kept ps /\
             Forall (fun p => get p "category" = Ok (JStr category)) kept.
Proof.
  intros Hc Hf. unfold filtered in Hf. rewrite Hc in Hf.
  destruct v as [| | | | |ps|]; try discriminate.
  destruct (filter_category category ps) as [k|] eqn:E; [|discriminate].
  simpl in Hf. injection Hf as <-. exists ps. split; [done|]. by apply filter_category_spec.
Qed.

(** C24: An error answer whose body is a JSON object (such as
    [{"detail": ...}]) becomes the product list, and the next render of
    the grid throws: [products.filter] under a category, or
    [filtered.map] under ['all']. *)
Theorem error_body_breaks_render (b : request -> outcome) (cat : option string) (s : S)
    (fs : list (string * jval)) (category : string) :
  b (products_req cat) = Responded (mk_response false (Ok (JObj fs))) ->
  exists e, bind (filtered category (getProducts (run b (loadProducts cat) s).1))
                 (grid (getLoading (run b (loadProducts cat) s).1)) = Throw e.
Proof.
  intros Hb. rewrite loadProducts_run, Hb. simpl. simpl_hooks.
  unfold filtered. destruct (String.eqb category "all"); simpl; eauto.
Qed.

End Proofs.

(** ** Witnesses on the initial app state *)

#[local] Abbreviation silver_ring :=
  (JObj [("_id", JStr "r1"); ("title", JStr "Ring"); ("category", JStr "silver");
         ("price", JNum 100)]).
#[local] Abbreviation oxidised_earrings :=
  (JObj [("_id", JStr "e2"); ("title", JStr "Earrings"); ("category", JStr "oxidised");
         ("price", JNum 250)]).

Lemma loadProducts_clears_loading_witness :
  getLoading (run (fun _ => Responded (mk_response true (Ok (JArr [silver_ring]))))
                  (loadProducts (Some "silver")) AppState.initial).1 = false /\
  (run (fun _ => Responded (mk_response true (Ok (JArr [silver_ring]))))
       (loadProducts (Some "silver")) AppState.initial).2 = [products_req (Some "silver")].
Proof. apply loadProducts_clears_loading. Defined.

Lemma loadProducts_failure_keeps_witness :
  getProducts (run (fun _ => Rejected (TypeError "Failed to fetch")) (loadProducts (Some "silver"))
                   AppState.initial).1 = getProducts AppState.initial /\
  getCart (run (fun _ => Rejected (TypeError "Failed to fetch")) (loadProducts (Some "silver"))
               AppState.initial).1 = getCart AppState.initial /\
  getMessage (run (fun _ => Rejected (TypeError "Failed to fetch")) (loadProducts (Some "silver"))
                  AppState.initial).1 = load_error_message.
Proof. apply (loadProducts_failure_keeps _ _ _ (TypeError "Failed to fetch")). reflexivity. Defined.

Lemma loadProducts_stores_body_witness :
  getProducts (run (fun _ => Responded (mk_response false (Ok (JObj [("detail", JStr "boom")]))))
                   (loadProducts None) AppState.initial).1 = JObj [("detail", JStr "boom")] /\
  getMessage (run (fun _ => Responded (mk_response false (Ok (JObj [("detail", JStr "boom")]))))
                  (loadProducts None) AppState.initial).1 = getMessage AppState.initial.
Proof. apply (loadProducts_stores_body _ _ _ false). reflexivity. Defined.

Lemma filtered_sound_witness :
  exists ps, JArr [silver_ring; oxidised_earrings] = JArr ps /\ sublist [silver_ring] ps /\
             Forall (fun p => get p "category" = Ok (JStr "silver")) [silver_ring].
Proof. apply (filtered_sound "silver"); reflexivity. Defined.

Lemma error_body_breaks_render_witness :
  exists e, bind (filtered "all" (getProducts
                   (run (fun _ => Responded (mk_response false (Ok (JObj [("detail", JStr "boom")]))))
                        (loadProducts None) AppState.initial).1))
                 (grid (getLoading
                   (run (fun _ => Responded (mk_response false (Ok (JObj [("detail", JStr "boom")]))))
                        (loadProducts None) AppState.initial).1)) = Throw e.
Proof. apply (error_body_breaks_render _ None AppState.initial [("detail", JStr "boom")]). reflexivity. Defined.

End Catalog.
