(* ===== verification/Router.v ===== *)
(** * The view router: the [route] hook, the panels it selects, and the
    navigation bar

    [route] is a string hook (App.jsx 14).  [App] renders the home panel
    when it is ['home'] (line 106), the catalog when ['catalog'] (147),
    the contact panel when ['contact'] (162) and the cart when ['cart']
    (171); any other value renders no panel.  [Navbar] calls
    [onNavigate] (that is, [setRoute]) with ['home'], ['silver'],
    ['oxidised'], ['contact'] and ['cart'] (Navbar.jsx 7-16); the home
    panel's "Shop" buttons set the category and the route ['catalog']
    (App.jsx 113-114).  A [ContactForm] is mounted inside the home and
    the contact panels (lines 141 and 166). *)

From S2P Require Import Prelude.
From Stdlib Require Import Ascii.
Open Scope string_scope.

Module Router.

Inductive panel : Type := PHome | PCatalog | PContact | PCart.

#[export] Instance panel_eq_dec : EqDecision panel.
Proof. solve_decision. Defined.

(** The panel [route === ...] selects. *)
Definition panel_of (route : string) : option panel :=
  if String.eqb route "home" then Some PHome
  else if String.eqb route "catalog" then Some PCatalog
  else if String.eqb route "contact" then Some PContact
  else if String.eqb route "cart" then Some PCart
  else None.

(** The arguments of [onNavigate] in [Navbar]. *)
Definition navbar_targets : list string := ["home"; "silver"; "oxidised"; "contact"; "cart"].

(** The categories of the "Shop" buttons and of the "Collections" row
    (App.jsx 113-114, 123-125). *)
Definition shop_categories : list string := ["silver"; "oxidised"].
Definition collection_categories : list string := ["all"; "silver"; "oxidised"].

Definition has_contact_form (route : string) : bool :=
  match panel_of route with Some PHome | Some PContact => true | _ => false end.

Definition shows_grid (route : string) : bool :=
  match panel_of route with Some PHome | Some PCatalog => true | _ => false end.

(** [c.toUpperCase()] on one character (ASCII letters). *)
Definition ascii_upper (c : ascii) : ascii :=
  let n := nat_of_ascii c in
  if ((97 <=? n)%nat && (n <=? 122)%nat) then ascii_of_nat (n - 32) else c.

(** The catalog title: [category === 'all' ? 'All Products' :
    category.charAt(0).toUpperCase() + category.slice(1)] (line 149). *)
Definition catalog_title (category : string) : string :=
  if String.eqb category "all" then "All Products"
  else match category with
       | EmptyString => EmptyString
       | String c rest => String (ascii_upper c) rest
       end.

(** The cart badge of [Navbar] (Navbar.jsx 18-20): shown with the count
    when it is positive. *)
Definition badge (cartCount : nat) : option nat :=
  if (0 <? cartCount)%nat then Some cartCount else None.

End Router.
