(* ===== verification/Contact.v ===== *)
(** * The contact form: [ContactForm.jsx]

    A mounted [ContactForm] keeps three hooks: the four text fields
    ([form]), a [loading] flag that disables the button, and a [status]
    line.  [handleChange] (lines 8-10) overwrites the field named by the
    input with the typed value, starting from the [form] of the last
    render.  [handleSubmit] (lines 12-32) captures the form, sets the
    flag, clears the status, posts the form to [/api/inquiries], and on
    an [ok] answer shows a thank-you line, empties the fields and calls
    [onSubmitted]; otherwise (error status or rejected fetch) it shows a
    retry line; in both cases it clears the flag.  Only [res.ok] is
    read: the body is never parsed.

    The handler is written against a [lift] that applies an update to
    the form instance the submission started in, and the [onSubmitted]
    callback of the parent: [App] passes [lift] functions that do
    nothing once that instance is unmounted (React ignores updates of an
    unmounted component), and an [onSubmitted] that sets its message.
    The browser submits the form only when the button is enabled and the
    [required] fields are non-empty (lines 36-40): [can_submit]. *)

From S2P Require Import Prelude JsValue Fetch.
Import Js Fetch.
Open Scope string_scope.

Module ContactForm.

Inductive field : Type := Name | Email | Phone | Message.

#[export] Instance field_eq_dec : EqDecision field.
Proof. solve_decision. Defined.

Record form : Type := mk_form { name : string; email : string; phone : string; msg : string }.

(** [{ name: '', email: '', phone: '', message: '' }] *)
Definition empty_form : form := mk_form "" "" "" "".

Record cstate : Type := mk_cstate {
  fields : form;
  sending : bool;
  status : option string
}.

(** The state of a freshly mounted form (lines 4-6). *)
Definition fresh : cstate := mk_cstate empty_form false None.

(** [setForm({ ...form, [e.target.name]: e.target.value })] *)
Definition handleChange (f : field) (v : string) (s : cstate) : cstate :=
  let x := fields s in
  mk_cstate (match f with
             | Name => mk_form v (email x) (phone x) (msg x)
             | Email => mk_form (name x) v (phone x) (msg x)
             | Phone => mk_form (name x) (email x) v (msg x)
             | Message => mk_form (name x) (email x) (phone x) v
             end) (sending s) (status s).

Definition setForm (x : form) (s : cstate) : cstate := mk_cstate x (sending s) (status s).
Definition setLoading (b : bool) (s : cstate) : cstate := mk_cstate (fields s) b (status s).
Definition setStatus (st : option string) (s : cstate) : cstate := mk_cstate (fields s) (sending s) st.

(** [JSON.stringify(form)] as the backend reads it. *)
Definition form_json (x : form) : jval :=
  JObj [("name", JStr (name x)); ("email", JStr (email x));
        ("phone", JStr (phone x)); ("message", JStr (msg x))].

Definition inquiry_req (x : form) : request := post "/api/inquiries" (form_json x).

Definition thanks : string := "Thanks! We will reach out shortly.".
Definition oops : string := "Something went wrong. Please try again.".

(** [res.ok] after [await fetch(...)]; a rejected fetch goes to [catch]. *)
Definition inquiry_ok (o : outcome) : bool :=
  match o with Rejected _ => false | Responded r => ok r end.

(** The browser's constraint validation and the disabled button. *)
Definition can_submit (s : cstate) : bool :=
  negb (sending s) && negb (String.eqb (name (fields s)) "")
  && negb (String.eqb (email (fields s)) "") && negb (String.eqb (msg (fields s)) "").

(** The button's label (line 41) and the status line, shown when
    [status] is truthy (line 43). *)
Definition submit_label (s : cstate) : string := if sending s then "Sending..." else "Send".

Definition status_line (s : cstate) : option string :=
  match status s with
  | Some st => if String.eqb st "" then None else Some st
  | None => None
  end.

Section Handler.
Context {S : Type} (lift : (cstate -> cstate) -> S -> S) (onSubmitted : S -> S).

(** What [handleSubmit] does once its request settles (lines 23-31). *)
Definition submit_settled (o : outcome) : task S :=
  if inquiry_ok o
  then Act (lift (setStatus (Some thanks)))
       (Act (lift (setForm empty_form))
       (Act onSubmitted
       (Act (lift (setLoading false)) Done)))
  else Act (lift (setStatus (Some oops)))
       (Act (lift (setLoading false)) Done).

(** [handleSubmit] (lines 12-32) on the form the submit event saw. *)
Definition handleSubmit (x : form) : task S :=
  Act (lift (setLoading true)) (Act (lift (setStatus None))
  (Await (inquiry_req x) submit_settled)).

End Handler.

(** The form on its own: updates apply to its state, [onSubmitted] is the
    parent's concern. *)
Definition standalone : (cstate -> cstate) -> cstate -> cstate := fun g s => g s.

(** ** Lemmas *)

Lemma handleSubmit_run (b : request -> outcome) (x : form) (s : cstate) :
  run b (handleSubmit standalone (fun s => s) x) s =
  (if inquiry_ok (b (inquiry_req x))
   then mk_cstate empty_form false (Some thanks)
   else mk_cstate (fields s) false (Some oops),
   [inquiry_req x]).
Proof. unfold handleSubmit, submit_settled. simpl. by destruct (inquiry_ok _). Qed.

(** C26: A successful submission empties all four fields, shows the
    thank-you line and re-enables the button. *)
Theorem submit_success_clears (b : request -> outcome) (x : form) (s : cstate) :
  inquiry_ok (b (inquiry_req x)) = true ->
  (run b (handleSubmit standalone (fun s => s) x) s).1 = mk_cstate empty_form false (Some thanks).
Proof. intros Hok. by rewrite handleSubmit_run, Hok. Qed.

(** C27: A failed submission (error status or rejected fetch) keeps the
    fields as they were, shows the retry line and re-enables the button. *)
Theorem submit_failure_keeps (b : request -> outcome) (x : form) (s : cstate) :
  inquiry_ok (b (inquiry_req x)) = false ->
  (run b (handleSubmit standalone (fun s => s) x) s).1 = mk_cstate (fields s) false (Some oops).
Proof. intros Hko. by rewrite handleSubmit_run, Hko. Qed.

(** C28: What is typed while a submission is pending is lost when that
    submission succeeds: the reset uses no functional update, so it
    overwrites the fields edited in between. *)
Theorem typing_during_submit_lost (x : form) (s : cstate) (f : field) (v : string) (r : response) :
  ok r = true ->
  let '(s1, t) := settle (handleSubmit standalone (fun s => s) x) s in
  match t with
  | Await _ k => fields (settle (k (Responded r)) (handleChange f v s1)).1 = empty_form
  | _ => False
  end.
Proof. intros Hok. unfold handleSubmit, submit_settled. simpl. by rewrite Hok. Qed.

Lemma submit_success_clears_witness :
  (run (fun _ => Responded (mk_response true (Ok JNull)))
       (handleSubmit standalone (fun s => s) (mk_form "Asha" "a@x.in" "" "Hi"))
       (mk_cstate (mk_form "Asha" "a@x.in" "" "Hi") false None)).1
  = mk_cstate empty_form false (Some thanks).
Proof. apply submit_success_clears. reflexivity. Defined.

Lemma submit_failure_keeps_witness :
  (run (fun _ => Rejected (TypeError "Failed to fetch"))
       (handleSubmit standalone (fun s => s) (mk_form "Asha" "a@x.in" "" "Hi"))
       (mk_cstate (mk_form "Asha" "a@x.in" "" "Hi") false None)).1
  = mk_cstate (mk_form "Asha" "a@x.in" "" "Hi") false (Some oops).
Proof. apply submit_failure_keeps. reflexivity. Defined.

Lemma typing_during_submit_lost_witness :
  let '(s1, t) := settle (handleSubmit standalone (fun s => s) (mk_form "Asha" "a@x.in" "" "Hi"))
                         (mk_cstate (mk_form "Asha" "a@x.in" "" "Hi") false None) in
  match t with
  | Await _ k => fields (settle (k (Responded (mk_response true (Ok JNull))))
                                (handleChange Message "Hi, and one more thing" s1)).1 = empty_form
  | _ => False
  end.
Proof. apply typing_during_submit_lost. reflexivity. Defined.

End ContactForm.
