(* ===== verification/App.v ===== *)
(** * The whole application: events, pending awaits and interleaving

    [App] (App.jsx 13-185) wires the components together.  A [world] of
    this file is what the page holds at one instant: the [ui] (App's
    hooks, the mounted [ContactForm]'s state and the generation that
    identifies it, and whether a render has thrown and unmounted the
    tree), the awaits still pending, each tagged with the handler that
    started it ([origin]), and the log of requests sent so far.

    [step] is one event: a click or keystroke the rendered page offers
    (its guards are the conditions under which the element is rendered
    and enabled), or the settling of one pending await with any outcome
    ([EResolve]): the backend may answer in any order, and a handler
    resumed by [EResolve] runs its synchronous segment ([settle]) at
    once.  After a state change React renders: [render_ok] is whether
    that render succeeds ([filtered], the product grid and the cart
    list can throw), and a failing render unmounts the application,
    after which only pending awaits still settle (their requests are
    still sent, their state updates are dropped).  Effects run after the
    render: a change of [category] starts [loadProducts] (lines 36-38).
    [reachable] is rule induction over [step] from the first render,
    whose effect starts the first load. *)

From S2P Require Import Prelude JsValue Cart Fetch Hooks Checkout Catalog Router Contact.
Import Js CartStore Fetch ReactState Checkout Catalog Router ContactForm.
Open Scope string_scope.
Open Scope list_scope.

Module App.

Record ui : Type := mk_ui {
  st : AppState.app_state;
  form_gen : nat;
  form_state : option cstate;
  crashed : bool
}.

#[export] Instance ui_hooks : Hooks ui := {
  hget h u := hget h (st u);
  hset h v u := mk_ui (hset h v (st u)) (form_gen u) (form_state u) (crashed u)
}.

Definition with_route (r : string) (a : AppState.app_state) : AppState.app_state :=
  AppState.mk_app r (AppState.products a) (AppState.category a) (AppState.cart a)
                  (AppState.loading a) (AppState.message a).

Definition with_category (c : string) (a : AppState.app_state) : AppState.app_state :=
  AppState.mk_app (AppState.route a) (AppState.products a) c (AppState.cart a)
                  (AppState.loading a) (AppState.message a).

(** [setRoute(r)]: nothing when the route is unchanged (React bails out);
    otherwise the [ContactForm] of the old panel, if any, unmounts and
    the new panel, if it has one, mounts a fresh one. *)
Definition set_route (r : string) (u : ui) : ui :=
  if String.eqb r (AppState.route (st u)) then u
  else if has_contact_form r
       then mk_ui (with_route r (st u)) (S (form_gen u)) (Some fresh) (crashed u)
       else mk_ui (with_route r (st u)) (form_gen u) None (crashed u).

(** [setCategory(c)] *)
Definition set_category (c : string) (u : ui) : ui :=
  mk_ui (with_category c (st u)) (form_gen u) (form_state u) (crashed u).

(** An update of the form instance of generation [g]; none once it is
    unmounted. *)
Definition lift_form (g : nat) (f : cstate -> cstate) (u : ui) : ui :=
  match form_state u with
  | Some c => if Nat.eqb g (form_gen u) then mk_ui (st u) (form_gen u) (Some (f c)) (crashed u)
              else u
  | None => u
  end.

(** [onSubmitted={() => setMessage('We have received your message.')}] *)
Definition received_message : string := "We have received your message.".
Definition onSubmitted : ui -> ui := setMessage received_message.

Inductive origin : Type :=
| OLoad (cat : option string)
| OCheckout (c : list line)
| OSubmit (g : nat) (x : form).

Record world : Type := mk_world {
  ui_of : ui;
  pending : list (origin * task ui);
  sent : list request
}.

(** A handler invoked now: its synchronous head runs, and the await it
    stops at, if any, is sent and becomes pending. *)
Definition spawn (o : origin) (t : task ui) (w : world) : world :=
  match settle t (ui_of w) with
  | (u', Await r k) => mk_world u' (pending w ++ [(o, Await r k)]) (sent w ++ [r])
  | (u', _) => mk_world u' (pending w) (sent w)
  end.

(** The [i]-th pending await settles with [o]. *)
Definition resume (i : nat) (o : outcome) (w : world) : option world :=
  match pending w !! i with
  | Some (org, Await r k) =>
      let '(u', t') := settle (k o) (ui_of w) in
      let u'' := if crashed (ui_of w) then ui_of w else u' in
      match t' with
      | Await r' k' => Some (mk_world u'' (<[i := (org, Await r' k')]> (pending w)) (sent w ++ [r']))
      | _ => Some (mk_world u'' (delete i (pending w)) (sent w))
      end
  | _ => None
  end.

(** The cart list of [Cart.jsx] renders each line's [title] as a child. *)
Definition cart_view_ok (items : list line) : bool :=
  forallb (fun i => renderable (title i)) items.

(** A number as JSX prints it, NaN included. *)
Definition number_text (n : option Z) : string :=
  match n with Some z => pretty z | None => "NaN" end.

(** [total.toFixed(2)] on an integral total (fixed notation, which
    [toFixed] uses below 10^21). *)
Definition to_fixed2 (n : option Z) : string :=
  match n with Some z => (pretty z ++ ".00")%string | None => "NaN" end.

(** One line of the cart list (Cart.jsx 11-20): its title, its
    quantity, its amount and the Remove button. *)
Definition cart_row (item : line) : except (list string) :=
  bind (child_text (title item)) (fun t =>
  Ok [t; ("Qty: " ++ pretty (qty item))%string; ("₹" ++ number_text (line_amount item))%string;
      "Remove"]).

(** The text of the cart panel (Cart.jsx 1-31): the empty message, or
    the lines, the total and the Checkout button. *)
Definition cart_panel (items : list line) : except (list string) :=
  if Nat.eqb (length items) 0 then Ok ["Your Cart"; "Your cart is empty."]
  else bind (mapE cart_row items) (fun rows =>
       Ok (["Your Cart"] ++ concat rows ++
           ["Total"; ("₹" ++ to_fixed2 (total items))%string; "Checkout"])).

(** Whether rendering [App] succeeds. *)
Definition render_ok (u : ui) : bool :=
  let a := st u in
  match filtered (AppState.category a) (AppState.products a) with
  | Throw _ => false
  | Ok f =>
      (if shows_grid (AppState.route a)
       then match grid (AppState.loading a) f with Ok _ => true | Throw _ => false end
       else true)
      && (if decide (panel_of (AppState.route a) = Some PCart)
          then match cart_panel (AppState.cart a) with Ok _ => true | Throw _ => false end
          else true)
  end.

Definition crash (w : world) : world :=
  mk_world (mk_ui (st (ui_of w)) (form_gen (ui_of w)) (form_state (ui_of w)) true)
           (pending w) (sent w).

(** The render after a state change. *)
Definition rendered (w : world) : world :=
  if crashed (ui_of w) || render_ok (ui_of w) then w else crash w.

(** The effect of lines 36-38 after a render, when [category] changed. *)
Definition category_effect (old : string) (w : world) : world :=
  let c := AppState.category (st (ui_of w)) in
  if String.eqb c old then w
  else rendered (spawn (OLoad (effect_arg c)) (loadProducts (effect_arg c)) w).

(** The products the grid shows, when it shows them. *)
Definition grid_items (u : ui) : list jval :=
  let a := st u in
  match filtered (AppState.category a) (AppState.products a) with
  | Ok f => match grid (AppState.loading a) f with Ok ps => ps | Throw _ => [] end
  | Throw _ => []
  end.

Inductive event : Type :=
| ENavigate (t : string)            (* a button of Navbar *)
| EShop (c : string)                (* "Shop Silver" / "Shop Oxidised" on the home panel *)
| ECollection (c : string)          (* "All" / "Silver" / "Oxidised" on the home panel *)
| EAdd (i : nat)                    (* "Add to Cart" on the i-th card of the grid *)
| ERemove (i : nat)                 (* "Remove" on the i-th cart line *)
| ECheckout                         (* "Checkout" *)
| EType (f : field) (v : string)    (* typing in the mounted contact form *)
| ESubmit                           (* submitting the mounted contact form *)
| EResolve (i : nat) (o : outcome). (* the i-th pending await settles *)

Definition set_ui (u : ui) (w : world) : world := mk_world u (pending w) (sent w).

Definition is_load_origin (o : origin) : bool := match o with OLoad _ => true | _ => false end.

(** The handlers of the rendered page. *)
Definition ui_step (w : world) (ev : event) : option world :=
  let u := ui_of w in
  let a := st u in
  match ev with
  | ENavigate t =>
      if decide (In t navbar_targets) then Some (rendered (set_ui (set_route t u) w)) else None
  | EShop c =>
      if decide (panel_of (AppState.route a) = Some PHome /\ In c shop_categories)
      then let w1 := rendered (set_ui (set_route "catalog" (set_category c u)) w) in
           Some (if crashed (ui_of w1) then w1 else category_effect (AppState.category a) w1)
      else None
  | ECollection c =>
      if decide (panel_of (AppState.route a) = Some PHome /\ In c collection_categories)
      then let w1 := rendered (set_ui (set_category c u) w) in
           Some (if crashed (ui_of w1) then w1 else category_effect (AppState.category a) w1)
      else None
  | EAdd i =>
      if shows_grid (AppState.route a) then
        match grid_items u !! i with
        | Some p =>
            match onAdd p (AppState.cart a) with
            | Ok c' => Some (rendered (set_ui (setCart c' u) w))
            | Throw _ => Some (crash w)
            end
        | None => None
        end
      else None
  | ERemove i =>
      if decide (panel_of (AppState.route a) = Some PCart /\ (i < length (AppState.cart a))%nat)
      then Some (rendered (set_ui (setCart (removeItem i (AppState.cart a)) u) w))
      else None
  | ECheckout =>
      if decide (panel_of (AppState.route a) = Some PCart /\ AppState.cart a <> [])
      then Some (rendered (spawn (OCheckout (AppState.cart a)) (checkout (AppState.cart a)) w))
      else None
  | EType f v =>
      match form_state u with
      | Some cs => Some (set_ui (mk_ui a (form_gen u) (Some (handleChange f v cs)) (crashed u)) w)
      | None => None
      end
  | ESubmit =>
      match form_state u with
      | Some cs =>
          if can_submit cs
          then Some (rendered (spawn (OSubmit (form_gen u) (fields cs))
                                     (handleSubmit (lift_form (form_gen u)) onSubmitted (fields cs)) w))
          else None
      | None => None
      end
  | EResolve i o => option_map rendered (resume i o w)
  end.

(** One step; once the tree is unmounted only awaits settle. *)
Definition step (w : world) (ev : event) : option world :=
  if crashed (ui_of w)
  then match ev with EResolve i o => resume i o w | _ => None end
  else ui_step w ev.

(** The first render, with the home panel's [ContactForm] mounted, and
    its effect: [loadProducts(undefined)]. *)
Definition initial_ui : ui := mk_ui AppState.initial 0 (Some fresh) false.

Definition init : world := spawn (OLoad None) (loadProducts None) (mk_world initial_ui [] []).

Fixpoint exec (w : world) (evs : list event) : option world :=
  match evs with
  | [] => Some w
  | ev :: evs' => match step w ev with Some w' => exec w' evs' | None => None end
  end.

Inductive reachable : world -> Prop :=
| reach_init : reachable init
| reach_step (w : world) (ev : event) (w' : world) :
    reachable w -> step w ev = Some w' -> reachable w'.

(** A catalog answer the page can show: a request or parse failure (the
    handler shows its message), or a parsed array of products each of
    which [ProductCard] renders. *)
Definition catalog_answer_ok (o : outcome) : bool :=
  match response_json o with
  | Ok (_, JArr ps) => forallb card_ok ps
  | Ok _ => false
  | Throw _ => true
  end.

(** An event after which the backend is well-behaved: a settling catalog
    request gets an answer the page can show; everything else is
    unconstrained. *)
Definition good_event (w : world) (ev : event) : bool :=
  match ev with
  | EResolve i o =>
      match pending w !! i with Some (OLoad _, _) => catalog_answer_ok o | _ => true end
  | _ => true
  end.

(** The states reachable when every catalog answer is one the page can
    show (every other click and answer, in any order, is allowed). *)
Inductive reachable_good : world -> Prop :=
| good_init : reachable_good init
| good_step (w : world) (ev : event) (w' : world) :
    reachable_good w -> good_event w ev = true -> step w ev = Some w' -> reachable_good w'.

(** [exec] restricted to events after which the backend is well-behaved. *)
Fixpoint exec_good (w : world) (evs : list event) : option world :=
  match evs with
  | [] => Some w
  | ev :: evs' =>
      if good_event w ev
      then match step w ev with Some w' => exec_good w' evs' | None => None end
      else None
  end.

(** ** The invariants of the page

    The invariants the lemmas below prove of every reachable state, with
    the per-entry conditions on pending awaits they rest on. *)

(** The cart invariant of [Cart], on the page's cart. *)
Definition cart_inv (u : ui) : Prop := cart_wf (AppState.cart (st u)).

(** An update that keeps the cart invariant. *)
Definition keeps_cart (f : ui -> ui) : Prop := forall u, cart_inv u -> cart_inv (f u).

Definition world_cart_inv (w : world) : Prop :=
  cart_inv (ui_of w) /\ Forall (fun e => task_all keeps_cart e.2) (pending w).

(** An update that leaves the loading flag and the mounted tree alone. *)
Definition keeps_loading (f : ui -> ui) : Prop :=
  forall u, AppState.loading (st (f u)) = AppState.loading (st u) /\ crashed (f u) = crashed u.

(** A pending load is the await of [loadProducts]; any other pending
    handler never touches the flag. *)
Definition entry_ok (Q : (ui -> ui) -> Prop) (e : origin * task ui) : Prop :=
  match e.1 with
  | OLoad cat => e.2 = Await (products_req cat) load_settled
  | _ => task_all Q e.2
  end.

Definition world_loading_inv (w : world) : Prop :=
  Forall (entry_ok keeps_loading) (pending w) /\
  (crashed (ui_of w) = false -> AppState.loading (st (ui_of w)) = true ->
   exists cat t, (OLoad cat, t) ∈ pending w).

(** The stored products are an array of cards [ProductCard] renders. *)
Definition products_ok (v : jval) : bool :=
  match v with JArr ps => forallb card_ok ps | _ => false end.

Definition view_inv (u : ui) : Prop :=
  crashed u = false /\ products_ok (AppState.products (st u)) = true /\
  cart_view_ok (AppState.cart (st u)) = true.

Definition keeps_view (f : ui -> ui) : Prop := forall u, view_inv u -> view_inv (f u).

(** The page renders, and every pending handler keeps it so. *)
Definition world_view_inv (w : world) : Prop :=
  view_inv (ui_of w) /\ Forall (entry_ok keeps_view) (pending w).

Definition is_submit_origin (o : origin) : bool :=
  match o with OSubmit _ _ => true | _ => false end.

(** Whether a pending entry is an inquiry of the form instance [g]. *)
Definition submit_of (g : nat) (e : origin * task ui) : bool :=
  match e.1 with OSubmit g' _ => Nat.eqb g g' | _ => false end.

Definition submit_gen_le (n : nat) (e : origin * task ui) : Prop :=
  match e.1 with OSubmit g _ => (g <= n)%nat | _ => True end.

(** An update that leaves the mounted form, its generation and the
    crash flag alone. *)
Definition keeps_form (f : ui -> ui) : Prop :=
  forall u, form_gen (f u) = form_gen u /\ form_state (f u) = form_state u /\ crashed (f u) = crashed u.

(** A pending inquiry is the await of [handleSubmit] on its instance;
    any other pending handler never touches the form. *)
Definition entry_form_ok (e : origin * task ui) : Prop :=
  match e.1 with
  | OSubmit g x => e.2 = Await (inquiry_req x) (submit_settled (lift_form g) onSubmitted)
  | _ => task_all keeps_form e.2
  end.

Definition sending_count (w : world) : Prop :=
  crashed (ui_of w) = false -> forall cs, form_state (ui_of w) = Some cs ->
  count (submit_of (form_gen (ui_of w))) (pending w) = if sending cs then 1%nat else 0%nat.

Definition world_form_inv (w : world) : Prop :=
  Forall entry_form_ok (pending w) /\ Forall (submit_gen_le (form_gen (ui_of w))) (pending w) /\
  sending_count w.

(** What an invariant must survive: each state change a handler of the
    page makes, under the guards [ui_step] checks, and each settling of
    a pending await allowed by [G]. *)
Record step_closed (G : world -> event -> Prop) (Inv : world -> Prop) : Prop := {
  closed_rendered : forall w, Inv w -> Inv (rendered w);
  closed_resume : forall w i o w', Inv w -> G w (EResolve i o) -> resume i o w = Some w' -> Inv w';
  closed_route : forall w u t, Inv (set_ui u w) -> Inv (set_ui (set_route t u) w);
  closed_category : forall w c, Inv w -> Inv (set_ui (set_category c (ui_of w)) w);
  closed_load : forall w cat, Inv w -> Inv (spawn (OLoad cat) (loadProducts cat) w);
  closed_add : forall w i p c', Inv w -> crashed (ui_of w) = false ->
    grid_items (ui_of w) !! i = Some p -> onAdd p (AppState.cart (st (ui_of w))) = Ok c' ->
    Inv (set_ui (setCart c' (ui_of w)) w);
  closed_add_throw : forall w i p e, Inv w -> crashed (ui_of w) = false ->
    grid_items (ui_of w) !! i = Some p -> onAdd p (AppState.cart (st (ui_of w))) = Throw e ->
    Inv (crash w);
  closed_remove : forall w i, Inv w -> crashed (ui_of w) = false ->
    Inv (set_ui (setCart (removeItem i (AppState.cart (st (ui_of w)))) (ui_of w)) w);
  closed_checkout : forall w, Inv w -> crashed (ui_of w) = false ->
    Inv (spawn (OCheckout (AppState.cart (st (ui_of w)))) (checkout (AppState.cart (st (ui_of w)))) w);
  closed_type : forall w cs f v, Inv w -> form_state (ui_of w) = Some cs ->
    Inv (set_ui (mk_ui (st (ui_of w)) (form_gen (ui_of w)) (Some (handleChange f v cs))
                       (crashed (ui_of w))) w);
  closed_submit : forall w cs, Inv w -> crashed (ui_of w) = false ->
    form_state (ui_of w) = Some cs -> can_submit cs = true ->
    Inv (spawn (OSubmit (form_gen (ui_of w)) (fields cs))
               (handleSubmit (lift_form (form_gen (ui_of w))) onSubmitted (fields cs)) w)
}.

Arguments closed_rendered {G Inv} _ _ _.
Arguments closed_resume {G Inv} _ _ _ _ _ _ _ _.
Arguments closed_route {G Inv} _ _ _ _ _.
Arguments closed_category {G Inv} _ _ _ _.
Arguments closed_load {G Inv} _ _ _ _.
Arguments closed_add {G Inv} _ _ _ _ _ _ _ _ _.
Arguments closed_add_throw {G Inv} _ _ _ _ _ _ _ _ _.
Arguments closed_remove {G Inv} _ _ _ _ _.
Arguments closed_checkout {G Inv} _ _ _ _.
Arguments closed_type {G Inv} _ _ _ _ _ _ _.
Arguments closed_submit {G Inv} _ _ _ _ _ _ _.

(** ** Lemmas *)

#[export] Instance ui_hooks_laws : HooksLaws ui.
Proof.
  split.
  - intros h v u. exact (hget_hset_eq (S:=AppState.app_state) h v (st u)).
  - intros h h' v u Hne. exact (hget_hset_ne (S:=AppState.app_state) h h' v (st u) Hne).
Qed.

(** The cart panel renders exactly when every line's title is a valid
    React child, which is what [render_ok] checks. *)
Lemma cart_panel_ok (items : list line) :
  (exists rows, cart_panel items = Ok rows) <-> cart_view_ok items = true.
Proof.
  unfold cart_panel, cart_view_ok.
  assert (H : (exists rows, mapE cart_row items = Ok rows) <->
              forallb (fun i => renderable (title i)) items = true).
  { induction items as [|x items IH]; [split; [done|by eexists]|].
    rewrite mapE_cons_ok, IH. simpl. rewrite andb_true_iff, <- child_text_ok.
    unfold cart_row. split.
    - intros [[r Hr] Hrest]. split; [|done].
      destruct (child_text (title x)) as [t|]; [by eexists|discriminate].
    - intros [[t Ht] Hrest]. split; [|done]. rewrite Ht. by eexists. }
  destruct items as [|x items']; [split; [done|by eexists]|]. simpl Nat.eqb. cbv iota.
  rewrite <- H. split.
  - intros [rows Hr]. destruct (mapE cart_row _) as [rs|]; [by eexists|discriminate].
  - intros [rs ->]. by eexists.
Qed.

Lemma exec_reachable (w w' : world) (evs : list event) :
  reachable w -> exec w evs = Some w' -> reachable w'.
Proof.
  revert w. induction evs as [|ev evs IH]; intros w Hw He; simpl in He.
  - congruence.
  - destruct (step w ev) as [w1|] eqn:Hs; [|discriminate].
    exact (IH w1 (reach_step _ _ _ Hw Hs) He).
Qed.

Lemma reachable_exec (evs : list event) (w : world) : exec init evs = Some w -> reachable w.
Proof. apply exec_reachable, reach_init. Qed.

Lemma reachable_good_exec (evs : list event) (w : world) :
  exec_good init evs = Some w -> reachable_good w.
Proof.
  assert (H : forall w0, reachable_good w0 -> exec_good w0 evs = Some w -> reachable_good w).
  { induction evs as [|ev evs IH]; intros w0 H0 He; simpl in He; [congruence|].
    destruct (good_event w0 ev) eqn:Hg; [|discriminate].
    destruct (step w0 ev) as [w1|] eqn:Hs; [|discriminate].
    exact (IH w1 (good_step _ _ _ H0 Hg Hs) He). }
  apply H, good_init.
Qed.

(** *** Invariants closed under every step

    [step_closed_step] does the case analysis on events once; each
    invariant below only discharges the obligations of [step_closed]. *)

Lemma set_ui_self (w : world) : set_ui (ui_of w) w = w.
Proof. by destruct w. Qed.

Section Closed.
Context {G : world -> event -> Prop} {Inv : world -> Prop} (HI : step_closed G Inv).

Lemma closed_effect_after (old : string) (w1 : world) :
  Inv w1 -> Inv (if crashed (ui_of w1) then w1 else category_effect old w1).
Proof.
  intros H. destruct (crashed (ui_of w1)); [done|]. unfold category_effect.
  destruct (String.eqb _ _); [done|]. by apply (closed_rendered HI), (closed_load HI).
Qed.

Lemma step_closed_step (w w' : world) (ev : event) :
  Inv w -> G w ev -> step w ev = Some w' -> Inv w'.
Proof.
  intros Hw Hg Hs. unfold step in Hs. destruct (crashed (ui_of w)) eqn:Hc.
  { destruct ev; try discriminate. exact (closed_resume HI w i o w' Hw Hg Hs). }
  destruct ev as [t|c|c|i|i| |f v| |i o]; simpl in Hs.
  - inv_some Hs. apply (closed_rendered HI), (closed_route HI). by rewrite set_ui_self.
  - inv_some Hs. by apply closed_effect_after, (closed_rendered HI), (closed_route HI),
                          (closed_category HI).
  - inv_some Hs. by apply closed_effect_after, (closed_rendered HI), (closed_category HI).
  - destruct (shows_grid _); [|discriminate].
    destruct (grid_items (ui_of w) !! i) as [p|] eqn:Hp; [|discriminate].
    destruct (onAdd p _) as [c'|e] eqn:Ha; injection Hs as <-.
    + apply (closed_rendered HI). exact (closed_add HI w i p c' Hw Hc Hp Ha).
    + exact (closed_add_throw HI w i p e Hw Hc Hp Ha).
  - inv_some Hs. apply (closed_rendered HI). by apply (closed_remove HI).
  - inv_some Hs. apply (closed_rendered HI). by apply (closed_checkout HI).
  - destruct (form_state _) as [cs|] eqn:Hf; [|discriminate]. injection Hs as <-.
    by apply (closed_type HI).
  - destruct (form_state _) as [cs|] eqn:Hf; [|discriminate].
    destruct (can_submit cs) eqn:Hok; [|discriminate]. injection Hs as <-.
    apply (closed_rendered HI). by apply (closed_submit HI).
  - destruct (resume i o w) as [w1|] eqn:Hr; [|discriminate]. injection Hs as <-.
    apply (closed_rendered HI). exact (closed_resume HI w i o w1 Hw Hg Hr).
Qed.

End Closed.

Lemma reachable_closed (Inv : world -> Prop) :
  step_closed (fun _ _ => True) Inv -> Inv init -> forall w, reachable w -> Inv w.
Proof.
  intros HI H0 w Hr. induction Hr as [|w ev w' _ IH Hs]; [done|].
  exact (step_closed_step HI w w' ev IH I Hs).
Qed.

Lemma reachable_good_closed (Inv : world -> Prop) :
  step_closed (fun w ev => good_event w ev = true) Inv -> Inv init ->
  forall w, reachable_good w -> Inv w.
Proof.
  intros HI H0 w Hr. induction Hr as [|w ev w' _ IH Hg Hs]; [done|].
  exact (step_closed_step HI w w' ev IH Hg Hs).
Qed.

(** *** The cart invariant holds in every reachable state *)

Ltac task_all_tac :=
  repeat match goal with
         | |- task_all _ (match ?x with _ => _ end) => destruct x
         | |- task_all _ (if ?b then _ else _) => destruct b
         | |- task_all _ _ => constructor
         | |- forall _, _ => intro
         end.

Lemma keeps_cart_setMessage (m : string) : keeps_cart (setMessage m).
Proof. intros u Hu. exact Hu. Qed.

Lemma checkout_keeps_cart (c : list line) : task_all keeps_cart (checkout c).
Proof.
  unfold checkout, fail. task_all_tac; try apply keeps_cart_setMessage.
  intros u _. split; [done|constructor].
Qed.

Lemma loadProducts_keeps_cart (cat : option string) : task_all keeps_cart (loadProducts cat).
Proof. unfold loadProducts, load_settled. task_all_tac; intros u Hu; exact Hu. Qed.

Lemma lift_form_keeps_cart (g : nat) (f : cstate -> cstate) : keeps_cart (lift_form g f).
Proof. intros u Hu. unfold lift_form. destruct (form_state u); [destruct (Nat.eqb _ _)|]; exact Hu. Qed.

Lemma handleSubmit_keeps_cart (g : nat) (x : form) :
  task_all keeps_cart (handleSubmit (lift_form g) onSubmitted x).
Proof.
  unfold handleSubmit, submit_settled. task_all_tac; try apply lift_form_keeps_cart; apply keeps_cart_setMessage.
Qed.

Lemma spawn_cart_inv (o : origin) (t : task ui) (w : world) :
  task_all keeps_cart t -> world_cart_inv w -> world_cart_inv (spawn o t w).
Proof.
  intros Ht [Hu Hp]. unfold spawn.
  destruct (settle_all keeps_cart cart_inv t (ui_of w) (fun f Hf => Hf) Ht Hu) as [Hu' Ht'].
  destruct (settle t (ui_of w)) as [u' t']. simpl in *.
  destruct t'; split; try done. apply Forall_app; split; [done|]. constructor; [exact Ht'|constructor].
Qed.

Lemma resume_cart_inv (i : nat) (o : outcome) (w w' : world) :
  world_cart_inv w -> resume i o w = Some w' -> world_cart_inv w'.
Proof.
  intros [Hu Hp] Hr. unfold resume in Hr.
  destruct (pending w !! i) as [[org t]|] eqn:Hi; [|discriminate].
  destruct t as [| |r k]; try discriminate.
  pose proof (Forall_lookup_1 _ _ _ _ Hp Hi) as Ht. simpl in Ht. inversion Ht as [| |r' k' Hk]; subst.
  destruct (settle_all keeps_cart cart_inv (k o) (ui_of w) (fun f Hf => Hf) (Hk o) Hu) as [Hu' Ht'].
  destruct (settle (k o) (ui_of w)) as [u' t'] eqn:Hs. simpl in *.
  destruct t'; injection Hr as <-; split; simpl; try (destruct (crashed (ui_of w)); done).
  - by apply Forall_delete.
  - by apply Forall_delete.
  - by apply Forall_insert.
Qed.

Lemma rendered_cart_inv (w : world) : world_cart_inv w -> world_cart_inv (rendered w).
Proof. unfold rendered, crash. by destruct (_ || _). Qed.

Lemma set_route_cart (r : string) (u : ui) :
  AppState.cart (st (set_route r u)) = AppState.cart (st u).
Proof. unfold set_route. destruct (String.eqb _ _); [|destruct (has_contact_form _)]; done. Qed.

Lemma cart_closed : step_closed (fun _ _ => True) world_cart_inv.
Proof.
  split.
  - apply rendered_cart_inv.
  - intros w i o w' Hw _ Hr. exact (resume_cart_inv i o w w' Hw Hr).
  - intros w u t [Hu Hp]. split; [|done]. unfold cart_inv. cbn [ui_of set_ui] in *.
    by rewrite set_route_cart.
  - intros w c Hw. exact Hw.
  - intros w cat Hw. apply spawn_cart_inv; [apply loadProducts_keeps_cart|done].
  - intros w i p c' [Hu Hp] _ _ Ha. split; [exact (onAdd_wf _ _ _ Hu Ha)|done].
  - intros w i p e Hw _ _ _. exact Hw.
  - intros w i [Hu Hp] _. split; [by apply removeItem_wf|done].
  - intros w Hw _. apply spawn_cart_inv; [apply checkout_keeps_cart|done].
  - intros w cs f v Hw _. exact Hw.
  - intros w cs Hw _ _ _. apply spawn_cart_inv; [apply handleSubmit_keeps_cart|done].
Qed.

(** C1: In every reachable state of the page, the cart holds no two
    lines with [===] product ids and every quantity is positive, however
    clicks and backend answers interleave. *)
Theorem reachable_cart_wf (w : world) : reachable w -> cart_wf (AppState.cart (st (ui_of w))).
Proof.
  intros Hr. enough (world_cart_inv w) as [H _] by exact H.
  apply (reachable_closed _ cart_closed); [|exact Hr].
  apply spawn_cart_inv; [apply loadProducts_keeps_cart|]. split; [split; [done|constructor]|constructor].
Qed.

(** *** The loading flag is set only while a catalog request is pending *)

Lemma checkout_keeps_loading (c : list line) : task_all keeps_loading (checkout c).
Proof. unfold checkout, fail. task_all_tac; done. Qed.

Lemma lift_form_keeps_loading (g : nat) (f : cstate -> cstate) : keeps_loading (lift_form g f).
Proof. intros u. unfold lift_form. destruct (form_state u); [destruct (Nat.eqb _ _)|]; done. Qed.

Lemma handleSubmit_keeps_loading (g : nat) (x : form) :
  task_all keeps_loading (handleSubmit (lift_form g) onSubmitted x).
Proof. unfold handleSubmit, submit_settled. task_all_tac; try done; apply lift_form_keeps_loading. Qed.

Lemma set_ui_loading_inv (u : ui) (w : world) :
  AppState.loading (st u) = AppState.loading (st (ui_of w)) -> crashed u = crashed (ui_of w) ->
  world_loading_inv w -> world_loading_inv (set_ui u w).
Proof. intros Hl Hc [He Hp]. split; [done|]. simpl. rewrite Hl, Hc. exact Hp. Qed.

Lemma rendered_loading_inv (w : world) : world_loading_inv w -> world_loading_inv (rendered w).
Proof.
  intros [He Hp]. unfold rendered. destruct (_ || _); [by split|].
  split; [done|]. simpl. discriminate.
Qed.

Lemma spawn_other_loading_inv (o : origin) (t : task ui) (w : world) :
  is_load_origin o = false -> task_all keeps_loading t ->
  world_loading_inv w -> world_loading_inv (spawn o t w).
Proof.
  intros Ho Ht [He Hp]. unfold spawn.
  set (P := fun u => AppState.loading (st u) = AppState.loading (st (ui_of w)) /\
                     crashed u = crashed (ui_of w)).
  destruct (settle_all keeps_loading P t (ui_of w)) as [[Hl Hc] Ht'];
    [intros f Hf x [Hx1 Hx2]; unfold P; by rewrite (proj1 (Hf x)), (proj2 (Hf x))|done|done|].
  destruct (settle t (ui_of w)) as [u' t']. simpl in *.
  assert (Hp' : crashed u' = false -> AppState.loading (st u') = true ->
                exists cat t0, (OLoad cat, t0) ∈ pending w).
  { rewrite Hl, Hc. exact Hp. }
  destruct t' as [| |r k]; split; try done.
  - apply Forall_app; split; [done|]. constructor; [|constructor].
    unfold entry_ok. simpl. destruct o; [discriminate|done|done].
  - intros H1 H2. destruct (Hp' H1 H2) as (cat & t0 & Hin). exists cat, t0.
    simpl. apply elem_of_app. by left.
Qed.

Lemma spawn_load_loading_inv (cat : option string) (w : world) :
  world_loading_inv w -> world_loading_inv (spawn (OLoad cat) (loadProducts cat) w).
Proof.
  intros [He Hp]. unfold spawn, loadProducts. simpl. split.
  - apply Forall_app; split; [done|]. constructor; [done|constructor].
  - intros _ _. exists cat, (Await (products_req cat) load_settled).
    apply elem_of_app. right. by apply list_elem_of_singleton.
Qed.

Lemma entry_ok_other (Q : (ui -> ui) -> Prop) (org : origin) (t : task ui) :
  is_load_origin org = false -> task_all Q t -> entry_ok Q (org, t).
Proof. destruct org; simpl; [discriminate|done|done]. Qed.

Lemma resume_other_loading_inv (i : nat) (o : outcome) (org : origin) (r : request)
    (k : outcome -> task ui) (w w' : world) :
  world_loading_inv w -> pending w !! i = Some (org, Await r k) ->
  is_load_origin org = false -> task_all keeps_loading (Await r k) ->
  resume i o w = Some w' -> world_loading_inv w'.
Proof.
  intros [He Hp] Hi Ho Hent Hr. unfold resume in Hr. rewrite Hi in Hr.
  inversion Hent as [| |r' k' Hk]; subst.
  set (P := fun u => AppState.loading (st u) = AppState.loading (st (ui_of w)) /\
                     crashed u = crashed (ui_of w)).
  destruct (settle_all keeps_loading P (k o) (ui_of w)) as [[Hl Hc] Ht'];
    [intros f Hf y [Hy1 Hy2]; unfold P; by rewrite (proj1 (Hf y)), (proj2 (Hf y))|done|done|].
  assert (Hne : forall cat (t0 : task ui), (org, Await r k) <> (OLoad cat, t0))
    by (intros cat t0 [= ->]; discriminate).
  assert (Hkeep : forall l' : list (origin * task ui),
            (forall x, x ∈ pending w -> (org, Await r k) <> x -> x ∈ l') ->
            crashed (ui_of w) = false -> AppState.loading (st (ui_of w)) = true ->
            exists cat (t0 : task ui), (OLoad cat, t0) ∈ l').
  { intros l' Hl' Hc0 Hl0. destruct (Hp Hc0 Hl0) as (cat & t0 & Hin).
    exists cat, t0. apply Hl'; [done|apply Hne]. }
  destruct (settle (k o) (ui_of w)) as [u' t']. simpl in *.
  destruct t' as [| |r2 k2]; injection Hr as <-; split; simpl.
  all: try (apply Forall_delete; done).
  all: try (apply Forall_insert; [done|by apply entry_ok_other]).
  all: destruct (crashed (ui_of w)) eqn:Hcw;
         [intros Hf; simpl in Hf; rewrite Hcw in Hf; discriminate Hf|].
  all: simpl; rewrite Hl; intros _ Hl0; apply (Hkeep _); [|done|done]; intros x Hx Hxne.
  all: first [by apply (elem_of_delete_ne _ _ _ _ Hx Hi)
             |by apply (elem_of_insert_ne _ _ _ _ _ Hx Hi)].
Qed.

Lemma resume_loading_inv (i : nat) (o : outcome) (w w' : world) :
  world_loading_inv w -> resume i o w = Some w' -> world_loading_inv w'.
Proof.
  intros Hw Hr. pose proof Hw as [He Hp]. unfold resume in Hr.
  destruct (pending w !! i) as [[org t]|] eqn:Hi; [|discriminate].
  pose proof (Forall_lookup_1 _ _ _ _ He Hi) as Hent. unfold entry_ok in Hent. simpl in Hent.
  destruct org as [cat|c|g x].
  - (* a load: it settles and clears the flag *)
    subst t. unfold load_settled in Hr.
    destruct (response_json o) as [[okb data]|e]; simpl in Hr; injection Hr as <-;
      (split; [by apply Forall_delete|]); simpl; destruct (crashed (ui_of w)) eqn:Hc;
      simpl; try discriminate; by rewrite Hc.
  - destruct t as [| |r k]; try discriminate.
    apply (resume_other_loading_inv i o (OCheckout c) r k w w' Hw Hi eq_refl Hent).
    unfold resume. by rewrite Hi.
  - destruct t as [| |r k]; try discriminate.
    apply (resume_other_loading_inv i o (OSubmit g x) r k w w' Hw Hi eq_refl Hent).
    unfold resume. by rewrite Hi.
Qed.

Lemma crash_loading_inv (w : world) : world_loading_inv w -> world_loading_inv (crash w).
Proof. intros [He Hp]. split; [done|]. simpl. discriminate. Qed.

Lemma set_route_loading (r : string) (u : ui) :
  AppState.loading (st (set_route r u)) = AppState.loading (st u) /\
  crashed (set_route r u) = crashed u.
Proof. unfold set_route. destruct (String.eqb _ _); [|destruct (has_contact_form _)]; done. Qed.

Lemma loading_closed : step_closed (fun _ _ => True) world_loading_inv.
Proof.
  split.
  - apply rendered_loading_inv.
  - intros w i o w' Hw _ Hr. exact (resume_loading_inv i o w w' Hw Hr).
  - intros w u t Hw. destruct (set_route_loading t u) as [H1 H2].
    exact (set_ui_loading_inv _ (set_ui u w) H1 H2 Hw).
  - intros w c Hw. by apply set_ui_loading_inv.
  - intros w cat Hw. by apply spawn_load_loading_inv.
  - intros w i p c' Hw _ _ _. by apply set_ui_loading_inv.
  - intros w i p e Hw _ _ _. by apply crash_loading_inv.
  - intros w i Hw _. by apply set_ui_loading_inv.
  - intros w Hw _. apply spawn_other_loading_inv; [done|apply checkout_keeps_loading|done].
  - intros w cs f v Hw _. by apply set_ui_loading_inv.
  - intros w cs Hw _ _ _. apply spawn_other_loading_inv; [done|apply handleSubmit_keeps_loading|done].
Qed.

(** C3: Whenever the page shows "Loading...", some catalog request is
    still pending: the flag is never left set with nothing in flight,
    whatever the order of clicks and answers. *)
Theorem loading_implies_pending_load (w : world) :
  reachable w -> crashed (ui_of w) = false -> AppState.loading (st (ui_of w)) = true ->
  exists cat t, (OLoad cat, t) ∈ pending w.
Proof.
  intros Hr. enough (world_loading_inv w) as [_ H] by exact H.
  apply (reachable_closed _ loading_closed); [|exact Hr].
  apply spawn_load_loading_inv. split; [constructor|]. simpl. discriminate.
Qed.

(** *** Well-formed catalog answers never crash the page *)

Lemma card_ok_not_nullish (p : jval) : card_ok p = true -> nullish p = false.
Proof. unfold card_ok. by destruct (nullish p). Qed.

Lemma filter_category_cards (c : string) (ps : list jval) :
  forallb card_ok ps = true ->
  exists kept, filter_category c ps = Ok kept /\ forallb card_ok kept = true.
Proof.
  intros H. assert (Hn : exists kept, filter_category c ps = Ok kept).
  { induction ps as [|p ps IH]; simpl in *; [by eexists|].
    apply andb_true_iff in H as [Hp Hps].
    destruct (get_not_nullish p "category") as [v ->]; [by apply card_ok_not_nullish|].
    destruct (IH Hps) as [kept ->]. by eexists. }
  destruct Hn as [kept Hk]. exists kept. split; [done|].
  apply (forallb_sublist _ _ ps); [apply (filter_category_spec c ps kept Hk)|done].
Qed.

Lemma filtered_cards (c : string) (v : jval) :
  products_ok v = true -> exists ps, filtered c v = Ok (JArr ps) /\ forallb card_ok ps = true.
Proof.
  destruct v as [| | | | |ps|]; try discriminate. intros H. unfold filtered.
  destruct (String.eqb c "all"); [by exists ps|].
  destruct (filter_category_cards c ps H) as (kept & -> & Hk). by exists kept.
Qed.

Lemma view_render_ok (u : ui) : view_inv u -> render_ok u = true.
Proof.
  intros (_ & Hp & Hc). unfold render_ok.
  destruct (filtered_cards (AppState.category (st u)) _ Hp) as (ps & -> & Hps).
  apply andb_true_iff. split.
  - destruct (shows_grid _); [|done]. unfold grid. destruct (AppState.loading _); [done|].
    by rewrite Hps.
  - case_decide; [|done]. by destruct (proj2 (cart_panel_ok _) Hc) as [rows ->].
Qed.

Lemma rendered_view (w : world) : view_inv (ui_of w) -> rendered w = w.
Proof. intros H. unfold rendered. by rewrite view_render_ok, orb_true_r. Qed.

Lemma grid_items_cards (u : ui) : view_inv u -> forallb card_ok (grid_items u) = true.
Proof.
  intros (_ & Hp & _). unfold grid_items.
  destruct (filtered_cards (AppState.category (st u)) _ Hp) as (ps & -> & Hps).
  unfold grid. destruct (AppState.loading _); [done|]. by rewrite Hps.
Qed.

Lemma onAdd_view (p : jval) (prev c : list line) :
  card_ok p = true -> cart_view_ok prev = true -> onAdd p prev = Ok c -> cart_view_ok c = true.
Proof.
  intros Hp Hv H. unfold cart_view_ok in *.
  apply onAdd_cases in H as (pid & _ & [(i & x & Hf & ->)|(_ & t & pr & Ht & ->)]).
  - apply list_find_Some in Hf as (Hl & _ & _). apply forallb_insert; [done|].
    apply forallb_forall with (x := x) in Hv; [done|]. apply list_elem_of_In.
    by apply list_elem_of_lookup_2 in Hl.
  - apply forallb_snoc; [done|]. simpl. unfold card_ok, prop in Hp. rewrite Ht in Hp.
    destruct (renderable t); [done|]. by rewrite andb_false_r, andb_false_l in Hp.
Qed.

(** The main area is always rendered (catalog loads start whatever the
    panel), so every setter but those of [products] and [cart] keeps the
    view; [setCart []] keeps it too. *)
Lemma checkout_keeps_view (c : list line) : task_all keeps_view (checkout c).
Proof.
  unfold checkout, fail. task_all_tac; try (intros u Hu; exact Hu).
  intros u (H1 & H2 & _). done.
Qed.

Lemma lift_form_keeps_view (g : nat) (f : cstate -> cstate) : keeps_view (lift_form g f).
Proof. intros u Hu. unfold lift_form. destruct (form_state u); [destruct (Nat.eqb _ _)|]; exact Hu. Qed.

Lemma handleSubmit_keeps_view (g : nat) (x : form) :
  task_all keeps_view (handleSubmit (lift_form g) onSubmitted x).
Proof.
  unfold handleSubmit, submit_settled. task_all_tac; try apply lift_form_keeps_view; intros u Hu; exact Hu.
Qed.

Lemma rendered_view_inv (w : world) : world_view_inv w -> world_view_inv (rendered w).
Proof. intros Hw. by rewrite rendered_view by apply Hw. Qed.

Lemma set_route_view (r : string) (u : ui) : view_inv u -> view_inv (set_route r u).
Proof. intros Hu. unfold set_route. destruct (String.eqb _ _); [|destruct (has_contact_form _)]; exact Hu. Qed.

Lemma spawn_other_view_inv (o : origin) (t : task ui) (w : world) :
  is_load_origin o = false -> task_all keeps_view t ->
  world_view_inv w -> world_view_inv (spawn o t w).
Proof.
  intros Ho Ht [Hu Hp]. unfold spawn.
  destruct (settle_all keeps_view view_inv t (ui_of w) (fun f Hf => Hf) Ht Hu) as [Hu' Ht'].
  destruct (settle t (ui_of w)) as [u' t']. simpl in *.
  destruct t'; split; try done.
  apply Forall_app; split; [done|]. constructor; [by apply entry_ok_other|constructor].
Qed.

Lemma spawn_load_view_inv (cat : option string) (w : world) :
  world_view_inv w -> world_view_inv (spawn (OLoad cat) (loadProducts cat) w).
Proof.
  intros [Hu Hp]. unfold spawn, loadProducts. simpl. split; [exact Hu|].
  apply Forall_app; split; [done|]. constructor; [done|constructor].
Qed.

(** A catalog answer the page can show settles [loadProducts] into a
    state that renders. *)
Lemma load_settled_view (o : outcome) (u : ui) :
  catalog_answer_ok o = true -> view_inv u ->
  view_inv (settle (load_settled o) u).1 /\ (settle (load_settled o) u).2 = Done.
Proof.
  unfold catalog_answer_ok, load_settled. intros Ho Hu.
  destruct (response_json o) as [[okb d]|e]; [|split; [exact Hu|done]].
  destruct d; try discriminate. destruct Hu as (H1 & _ & H3). split; [|done].
  split; [exact H1|]. split; [exact Ho|exact H3].
Qed.

Lemma resume_other_view_inv (i : nat) (o : outcome) (org : origin) (r : request)
    (k : outcome -> task ui) (w w' : world) :
  world_view_inv w -> pending w !! i = Some (org, Await r k) ->
  is_load_origin org = false -> task_all keeps_view (Await r k) ->
  resume i o w = Some w' -> world_view_inv w'.
Proof.
  intros [Hu Hp] Hi Ho Hent Hr. unfold resume in Hr. rewrite Hi in Hr.
  inversion Hent as [| |r' k' Hk]; subst.
  destruct (settle_all keeps_view view_inv (k o) (ui_of w) (fun f Hf => Hf) (Hk o) Hu) as [Hu' Ht'].
  destruct (settle (k o) (ui_of w)) as [u' t']. simpl in *. rewrite (proj1 Hu) in Hr.
  destruct t'; injection Hr as <-; (split; [done|]).
  - by apply Forall_delete.
  - by apply Forall_delete.
  - apply Forall_insert; [done|by apply entry_ok_other].
Qed.

Lemma resume_view_inv (i : nat) (o : outcome) (w w' : world) :
  world_view_inv w -> good_event w (EResolve i o) = true -> resume i o w = Some w' ->
  world_view_inv w'.
Proof.
  intros Hw Hg Hr. pose proof Hw as [Hu Hp]. simpl in Hg. unfold resume in Hr.
  destruct (pending w !! i) as [[org t]|] eqn:Hi; [|discriminate].
  pose proof (Forall_lookup_1 _ _ _ _ Hp Hi) as Hent. unfold entry_ok in Hent. simpl in Hent.
  destruct org as [cat|c|g x].
  - subst t. destruct (load_settled_view o (ui_of w) Hg Hu) as [Hu' Hd].
    destruct (settle (load_settled o) (ui_of w)) as [u' t']. simpl in Hu', Hd. subst t'.
    rewrite (proj1 Hu) in Hr. injection Hr as <-. split; [done|by apply Forall_delete].
  - destruct t as [| |r k]; try discriminate.
    apply (resume_other_view_inv i o (OCheckout c) r k w w' Hw Hi eq_refl Hent).
    unfold resume. by rewrite Hi.
  - destruct t as [| |r k]; try discriminate.
    apply (resume_other_view_inv i o (OSubmit g x) r k w w' Hw Hi eq_refl Hent).
    unfold resume. by rewrite Hi.
Qed.

Lemma grid_card (u : ui) (i : nat) (p : jval) :
  view_inv u -> grid_items u !! i = Some p -> card_ok p = true.
Proof.
  intros Hu Hgi. apply (proj1 (forallb_forall _ _) (grid_items_cards _ Hu)), list_elem_of_In.
  by apply list_elem_of_lookup_2 in Hgi.
Qed.

Lemma view_closed : step_closed (fun w ev => good_event w ev = true) world_view_inv.
Proof.
  split.
  - apply rendered_view_inv.
  - intros w i o w' Hw Hg Hr. exact (resume_view_inv i o w w' Hw Hg Hr).
  - intros w u t [Hu Hp]. split; [by apply set_route_view|done].
  - intros w c Hw. exact Hw.
  - intros w cat Hw. by apply spawn_load_view_inv.
  - intros w i p c' [(H1 & H2 & H3) Hp] _ Hgi Ha. split; [|done].
    split; [exact H1|]. split; [exact H2|].
    exact (onAdd_view _ _ _ (grid_card _ _ _ (conj H1 (conj H2 H3)) Hgi) H3 Ha).
  - intros w i p e [Hu _] _ Hgi Ha. exfalso.
    destruct (onAdd_not_nullish p (AppState.cart (st (ui_of w)))) as [c' Hc'];
      [apply card_ok_not_nullish, (grid_card _ _ _ Hu Hgi)|congruence].
  - intros w i [(H1 & H2 & H3) Hp] _. split; [|done]. split; [exact H1|]. split; [exact H2|].
    unfold cart_view_ok. rewrite removeItem_delete. by apply forallb_delete.
  - intros w Hw _. apply spawn_other_view_inv; [done|apply checkout_keeps_view|done].
  - intros w cs f v Hw _. exact Hw.
  - intros w cs Hw _ _ _. apply spawn_other_view_inv; [done|apply handleSubmit_keeps_view|done].
Qed.

(** C2: As long as every catalog answer is a request failure or an
    array of products whose title, category and price React can render,
    the page never unmounts and every render succeeds, whatever clicks,
    checkouts, submissions and other answers interleave. *)
Theorem good_answers_never_crash (w : world) :
  reachable_good w -> crashed (ui_of w) = false /\ render_ok (ui_of w) = true.
Proof.
  intros Hr. enough (world_view_inv w) as [Hu _] by (split; [apply Hu|by apply view_render_ok]).
  apply (reachable_good_closed _ view_closed); [|exact Hr].
  apply spawn_load_view_inv. split; [split; [done|done]|constructor].
Qed.

(** *** The contact form is disabled exactly while its inquiry is pending *)

Lemma checkout_keeps_form (c : list line) : task_all keeps_form (checkout c).
Proof. unfold checkout, fail. task_all_tac; done. Qed.

Lemma loadProducts_keeps_form (cat : option string) : task_all keeps_form (loadProducts cat).
Proof. unfold loadProducts, load_settled. task_all_tac; done. Qed.

(** A settled inquiry finishes, and re-enables its form if that form is
    still the mounted one. *)
Lemma submit_settled_form (g : nat) (o : outcome) (u : ui) :
  let r := settle (submit_settled (lift_form g) onSubmitted o) u in
  r.2 = Done /\ form_gen r.1 = form_gen u /\ crashed r.1 = crashed u /\
  option_map sending (form_state r.1) =
    if Nat.eqb g (form_gen u) then option_map (fun _ => false) (form_state u)
    else option_map sending (form_state u).
Proof.
  destruct u as [a n [c|] cr]; unfold submit_settled, lift_form; simpl;
    [destruct (Nat.eqb g n) eqn:Hg|]; destruct (inquiry_ok o); repeat progress (cbn; rewrite ?Hg);
    try done; by destruct (Nat.eqb g n).
Qed.

Lemma entry_form_ok_other (org : origin) (t : task ui) :
  is_submit_origin org = false -> task_all keeps_form t -> entry_form_ok (org, t).
Proof. destruct org; simpl; [done|done|discriminate]. Qed.

Lemma submit_of_other (g : nat) (org : origin) (t : task ui) :
  is_submit_origin org = false -> submit_of g (org, t) = false.
Proof. destruct org; simpl; [done|done|discriminate]. Qed.

(** A newly mounted form has no inquiry pending. *)
Lemma count_remount (n : nat) (l : list (origin * task ui)) :
  Forall (submit_gen_le n) l -> count (submit_of (S n)) l = 0%nat.
Proof.
  intros H. apply count_none. eapply Forall_impl; [|exact H].
  intros [[cat|c|g x] t]; unfold submit_gen_le, submit_of; simpl; [done|done|].
  intros Hg. destruct g as [|m]; [done|]. apply Nat.eqb_neq. lia.
Qed.

(** The invariant only looks at the form's generation, its [sending]
    flag, the crash flag and the pending inquiries. *)
Lemma form_inv_frame (w : world) (u : ui) (l : list (origin * task ui)) (sn : list request) :
  world_form_inv w -> form_gen u = form_gen (ui_of w) -> crashed u = crashed (ui_of w) ->
  option_map sending (form_state u) = option_map sending (form_state (ui_of w)) ->
  Forall entry_form_ok l -> Forall (submit_gen_le (form_gen u)) l ->
  count (submit_of (form_gen u)) l = count (submit_of (form_gen u)) (pending w) ->
  world_form_inv (mk_world u l sn).
Proof.
  intros (_ & _ & Hc) Hn Hcr Hs He Hg Hcount. split; [done|]. split; [done|].
  intros Hc0 cs Hcs. simpl in *. rewrite Hcount, Hn. rewrite Hcs in Hs.
  destruct (form_state (ui_of w)) as [cs0|] eqn:E; [|discriminate]. injection Hs as Hs.
  rewrite Hs. apply Hc; [by rewrite <- Hcr|done].
Qed.

Lemma set_ui_form_inv (u : ui) (w : world) :
  world_form_inv w -> form_gen u = form_gen (ui_of w) -> crashed u = crashed (ui_of w) ->
  option_map sending (form_state u) = option_map sending (form_state (ui_of w)) ->
  world_form_inv (set_ui u w).
Proof.
  intros Hw Hn Hcr Hs. pose proof Hw as (He & Hg & _).
  apply (form_inv_frame w); try done; by rewrite Hn.
Qed.

Lemma crash_form_inv (w : world) : world_form_inv w -> world_form_inv (crash w).
Proof. intros (He & Hg & _). split; [done|]. split; [done|]. intros H. discriminate H. Qed.

Lemma rendered_form_inv (w : world) : world_form_inv w -> world_form_inv (rendered w).
Proof. intros Hw. unfold rendered. destruct (_ || _); [done|by apply crash_form_inv]. Qed.

Lemma set_route_form_inv (r : string) (u : ui) (w : world) :
  world_form_inv (set_ui u w) -> world_form_inv (set_ui (set_route r u) w).
Proof.
  intros Hw. unfold set_route. destruct (String.eqb _ _); [done|].
  destruct Hw as (He & Hg & _). destruct (has_contact_form r).
  - split; [done|]. split.
    + eapply Forall_impl; [|exact Hg]. intros [[] t]; unfold submit_gen_le; simpl; [done|done|lia].
    + intros _ cs [= <-]. by apply count_remount.
  - split; [done|]. split; [done|]. intros _ cs H. discriminate H.
Qed.

Lemma spawn_other_form_inv (o : origin) (t : task ui) (w : world) :
  is_submit_origin o = false -> task_all keeps_form t ->
  world_form_inv w -> world_form_inv (spawn o t w).
Proof.
  intros Ho Ht Hw. pose proof Hw as (He & Hg & _). unfold spawn.
  set (P := fun u => form_gen u = form_gen (ui_of w) /\ form_state u = form_state (ui_of w) /\
                     crashed u = crashed (ui_of w)).
  destruct (settle_all keeps_form P t (ui_of w)) as [(Hn & Hf & Hc) Ht'];
    [intros f Hf x (H1 & H2 & H3); destruct (Hf x) as (F1 & F2 & F3); unfold P;
     by rewrite F1, F2, F3|done|done|].
  destruct (settle t (ui_of w)) as [u' t']. simpl in *.
  destruct t' as [| |r k]; apply (form_inv_frame w); rewrite ?Hn, ?Hf; try done.
  - apply Forall_app; split; [done|]. constructor; [by apply entry_form_ok_other|constructor].
  - apply Forall_app; split; [done|]. constructor; [|constructor].
    unfold submit_gen_le. simpl. by destruct o.
  - by rewrite count_snoc, submit_of_other, Nat.add_0_r.
Qed.

Lemma lift_form_mounted (g : nat) (u : ui) (cs : cstate) (f : cstate -> cstate) :
  form_gen u = g -> form_state u = Some cs ->
  lift_form g f u = mk_ui (st u) (form_gen u) (Some (f cs)) (crashed u).
Proof. intros <- Hf. unfold lift_form. by rewrite Hf, Nat.eqb_refl. Qed.

(** A submission of the mounted form: its button was enabled, so none of
    its inquiries was pending; now exactly one is, and the button is
    disabled. *)
Lemma spawn_submit_form_inv (w : world) (cs : cstate) :
  world_form_inv w -> crashed (ui_of w) = false -> form_state (ui_of w) = Some cs ->
  sending cs = false ->
  world_form_inv (spawn (OSubmit (form_gen (ui_of w)) (fields cs))
                        (handleSubmit (lift_form (form_gen (ui_of w))) onSubmitted (fields cs)) w).
Proof.
  intros (He & Hg & Hc) Hcr Hf Hs. pose proof (Hc Hcr cs Hf) as Hcount. rewrite Hs in Hcount.
  unfold spawn, handleSubmit. cbn [settle].
  rewrite (lift_form_mounted _ _ _ _ eq_refl Hf).
  erewrite lift_form_mounted; [|reflexivity|reflexivity].
  split; [apply Forall_app; split; [done|constructor; [reflexivity|constructor]]|].
  split; [apply Forall_app; split; [exact Hg|constructor; [cbn; lia|constructor]]|].
  intros _ cs' Hcs'. cbn in Hcs'. injection Hcs' as <-. cbn [form_gen ui_of pending].
  rewrite count_snoc, Hcount. unfold submit_of. cbn. by rewrite Nat.eqb_refl.
Qed.

Lemma resume_other_form_inv (i : nat) (o : outcome) (org : origin) (r : request)
    (k : outcome -> task ui) (w w' : world) :
  world_form_inv w -> pending w !! i = Some (org, Await r k) ->
  is_submit_origin org = false -> task_all keeps_form (Await r k) ->
  resume i o w = Some w' -> world_form_inv w'.
Proof.
  intros Hw Hi Ho Hent Hr. pose proof Hw as (He & Hg & _). unfold resume in Hr. rewrite Hi in Hr.
  inversion Hent as [| |r' k' Hk]; subst.
  set (P := fun u => form_gen u = form_gen (ui_of w) /\ form_state u = form_state (ui_of w) /\
                     crashed u = crashed (ui_of w)).
  destruct (settle_all keeps_form P (k o) (ui_of w)) as [HP Ht'];
    [intros f Hf x (H1 & H2 & H3); destruct (Hf x) as (F1 & F2 & F3); unfold P;
     by rewrite F1, F2, F3|done|done|].
  destruct (settle (k o) (ui_of w)) as [u' t']. simpl in *.
  assert (HP' : P (if crashed (ui_of w) then ui_of w else u'))
    by (destruct (crashed (ui_of w)) eqn:Hcw; [unfold P; auto|exact HP]).
  set (u'' := if crashed (ui_of w) then ui_of w else u') in *. destruct HP' as (Hn & Hf & Hc).
  destruct t' as [| |r2 k2]; injection Hr as <-; apply (form_inv_frame w); rewrite ?Hn, ?Hf;
    try done.
  all: try (apply Forall_delete; done).
  all: try (apply Forall_insert; [done|by apply entry_form_ok_other]).
  all: try (apply Forall_insert; [done|unfold submit_gen_le; simpl; by destruct org]).
  all: first [symmetry; rewrite (count_delete _ i (pending w) _ Hi), submit_of_other by done; lia
             |by apply (count_insert _ i (pending w) _ _ Hi)].
Qed.

Lemma resume_form_inv (i : nat) (o : outcome) (w w' : world) :
  world_form_inv w -> resume i o w = Some w' -> world_form_inv w'.
Proof.
  intros Hw Hr. pose proof Hw as (He & Hg & Hc). unfold resume in Hr.
  destruct (pending w !! i) as [[org t]|] eqn:Hi; [|discriminate].
  pose proof (Forall_lookup_1 _ _ _ _ He Hi) as Hent. unfold entry_form_ok in Hent. simpl in Hent.
  destruct org as [cat|c|g x].
  1, 2: destruct t as [| |r k]; try discriminate;
        refine (resume_other_form_inv i o _ r k w w' Hw Hi eq_refl Hent _);
        unfold resume; by rewrite Hi.
  subst t. destruct (submit_settled_form g o (ui_of w)) as (Hd & Hn & Hcr & Hs).
  destruct (settle _ (ui_of w)) as [u' t']. simpl in *. subst t'. injection Hr as <-.
  split; [by apply Forall_delete|]. cbn [ui_of pending].
  destruct (crashed (ui_of w)) eqn:Hcw.
  { split; [by apply Forall_delete|]. intros H. cbn [ui_of] in H. congruence. }
  rewrite Hn. split; [by apply Forall_delete|]. intros _ cs Hcs. cbn [ui_of pending] in Hcs |- *.
  rewrite Hn. rewrite Hcs in Hs.
  pose proof (count_delete (submit_of (form_gen (ui_of w))) i (pending w) _ Hi) as Hdel.
  rewrite (Nat.eqb_sym (form_gen (ui_of w)) g : submit_of _ (OSubmit g x, _) = _) in Hdel.
  destruct (form_state (ui_of w)) as [cs0|] eqn:E; simpl in Hs; [|by destruct (Nat.eqb _ _)].
  pose proof (Hc Hcw cs0 E) as Hc0.
  destruct (Nat.eqb g (form_gen (ui_of w))); injection Hs as Hs; rewrite Hs.
  - destruct (sending cs0); lia.
  - lia.
Qed.

Lemma can_submit_enabled (cs : cstate) : can_submit cs = true -> sending cs = false.
Proof. unfold can_submit. by destruct (sending cs). Qed.

Lemma form_closed : step_closed (fun _ _ => True) world_form_inv.
Proof.
  split.
  - apply rendered_form_inv.
  - intros w i o w' Hw _ Hr. exact (resume_form_inv i o w w' Hw Hr).
  - intros w u t Hw. by apply set_route_form_inv.
  - intros w c Hw. by apply set_ui_form_inv.
  - intros w cat Hw. apply spawn_other_form_inv; [done|apply loadProducts_keeps_form|done].
  - intros w i p c' Hw _ _ _. by apply set_ui_form_inv.
  - intros w i p e Hw _ _ _. by apply crash_form_inv.
  - intros w i Hw _. by apply set_ui_form_inv.
  - intros w Hw _. apply spawn_other_form_inv; [done|apply checkout_keeps_form|done].
  - intros w cs f v Hw Hf. apply set_ui_form_inv; [done|done|done|]. by rewrite Hf.
  - intros w cs Hw Hc Hf Hok. apply spawn_submit_form_inv; [done|done|done|].
    by apply can_submit_enabled.
Qed.

(** C5: The in-progress flag of the mounted contact form is exact: while
    its button is disabled exactly one inquiry of that form instance is
    pending, and while it is enabled none is, whatever clicks, route
    changes and answers interleave; so one form instance never posts a
    second inquiry before its first has settled. *)
Theorem form_sending_tracks_inquiry (w : world) :
  reachable w -> crashed (ui_of w) = false ->
  forall cs, form_state (ui_of w) = Some cs ->
  count (submit_of (form_gen (ui_of w))) (pending w) = if sending cs then 1%nat else 0%nat.
Proof.
  intros Hr. enough (world_form_inv w) as (_ & _ & H) by exact H.
  apply (reachable_closed _ form_closed); [|exact Hr].
  apply spawn_other_form_inv; [done|apply loadProducts_keeps_form|].
  split; [constructor|]. split; [constructor|]. intros _ cs [= <-]. done.
Qed.

(** *** A catalog answer that is a JSON object unmounts the page *)

(** A pending catalog load waits on [loadProducts]'s single await. *)
Lemma pending_load_entry (w : world) (i : nat) (cat : option string) (t : task ui) :
  reachable w -> pending w !! i = Some (OLoad cat, t) -> t = Await (products_req cat) load_settled.
Proof.
  intros Hr Hp. destruct (reachable_closed _ loading_closed) with (w := w) as [HF _]; [|done|].
  { apply spawn_load_loading_inv. split; [constructor|]. simpl. discriminate. }
  exact (Forall_lookup_1 _ _ _ _ HF Hp).
Qed.

(** C33: From any reachable state of the mounted page, when a pending
    catalog request is answered, with any status, by a JSON object (a
    FastAPI error body such as [{"detail": ...}]) rather than an array,
    the next render throws and unmounts the whole application, as soon
    as the route shows the product grid or a category other than
    ["all"] is selected. *)
Theorem error_answer_unmounts_app (w w' : world) (i : nat) (cat : option string)
    (t : task ui) (okb : bool) (fs : list (string * jval)) :
  reachable w -> crashed (ui_of w) = false -> pending w !! i = Some (OLoad cat, t) ->
  (shows_grid (AppState.route (st (ui_of w))) = true \/
   AppState.category (st (ui_of w)) <> "all") ->
  step w (EResolve i (Responded (mk_response okb (Ok (JObj fs))))) = Some w' ->
  crashed (ui_of w') = true.
Proof.
  intros Hr Hc Hp Hg Hs. rewrite (pending_load_entry w i cat t Hr Hp) in Hp.
  unfold step in Hs. rewrite Hc in Hs. cbn [ui_step] in Hs. unfold resume in Hs. rewrite Hp in Hs.
  destruct w as [[a g f cr] pd sn]. cbn in Hc, Hg, Hs. subst cr.
  injection Hs as <-. unfold rendered, render_ok, filtered. cbn.
  destruct a as [route prods category cart loading msg]; cbn in Hg |- *.
  destruct (String.eqb category "all") eqn:E; cbn; [|done].
  apply String.eqb_eq in E. destruct Hg as [Hg|]; [|done]. by rewrite Hg.
Qed.

(** The products and answers the scenarios below use. *)
#[local] Abbreviation ring := (JObj [("_id", JStr "r1"); ("title", JStr "Ring");
                                  ("category", JStr "silver"); ("price", JNum 100)]).
#[local] Abbreviation earrings := (JObj [("_id", JStr "e2"); ("title", JStr "Earrings");
                                      ("category", JStr "oxidised"); ("price", JNum 250)]).
#[local] Abbreviation answer v := (Responded (mk_response true (Ok v))).

(** C32: The loading flag is not a count of pending loads: a reachable
    state shows the grid (loading is false) while a catalog request is
    still pending, because the first of two overlapping loads to finish
    clears the flag. *)
Theorem loading_cleared_while_pending :
  exists w, reachable w /\ getLoading (ui_of w) = false /\
            exists i cat t, pending w !! i = Some (OLoad cat, t).
Proof.
  eexists. split.
  - apply (reachable_exec [ECollection "silver"; EResolve 0 (answer (JArr [ring; earrings]))]).
    vm_compute. reflexivity.
  - split; [vm_compute; reflexivity|]. exists 0%nat. do 2 eexists. vm_compute. reflexivity.
Qed.


(** C30: An item added while a checkout is pending is dropped: the
    checkout ordered the one-line cart it captured, and its success
    empties the two-line cart, although the second line was never
    ordered. *)
Theorem checkout_drops_added_line :
  exists w w', reachable w /\ step w (EResolve 0 (answer (JObj []))) = Some w' /\
    getCart (ui_of w) = [mk_line (JStr "r1") (JStr "Ring") (JNum 100) 1;
                         mk_line (JStr "e2") (JStr "Earrings") (JNum 250) 1] /\
    getCart (ui_of w') = [] /\
    sent w' = [products_req None;
               order_req [mk_line (JStr "r1") (JStr "Ring") (JNum 100) 1];
               intent_req (JStr "o1"); confirm_req (JStr "o1") (JStr "p9")].
Proof.
  do 2 eexists. split.
  - apply (reachable_exec [EResolve 0 (answer (JArr [ring; earrings])); EAdd 0;
                           ENavigate "cart"; ECheckout; ENavigate "home"; EAdd 1;
                           EResolve 0 (answer (JObj [("order_id", JStr "o1")]));
                           EResolve 0 (answer (JObj [("reference", JStr "p9")]))]).
    vm_compute. reflexivity.
  - vm_compute. repeat split.
Qed.


(** C34: The in-progress flag does not prevent a second inquiry while
    the first is pending: navigating to the contact panel remounts a
    fresh form whose button is enabled, so the same inquiry is posted
    twice with both requests in flight. *)
Theorem resubmit_after_remount :
  exists w, reachable w /\
    sent w = [products_req None; inquiry_req (mk_form "Asha" "a@x.in" "" "Hi");
              inquiry_req (mk_form "Asha" "a@x.in" "" "Hi")] /\
    length (List.filter (fun e => match e.1 with OSubmit _ _ => true | _ => false end) (pending w)) = 2%nat.
Proof.
  eexists. split.
  - apply (reachable_exec [EType Name "Asha"; EType Email "a@x.in"; EType Message "Hi"; ESubmit;
                           ENavigate "contact";
                           EType Name "Asha"; EType Email "a@x.in"; EType Message "Hi"; ESubmit]).
    vm_compute. reflexivity.
  - split; vm_compute; reflexivity.
Qed.

(** C36: From any state of the mounted page, the navigation bar's
    "Silver" and "Oxidised" buttons select no panel, leave the category
    unchanged and start no catalog request: the main area goes blank
    instead of listing that collection. *)
Theorem navbar_category_blank (w w' : world) (t : string) :
  crashed (ui_of w) = false -> t = "silver" \/ t = "oxidised" -> step w (ENavigate t) = Some w' ->
  panel_of (AppState.route (st (ui_of w'))) = None /\
  AppState.category (st (ui_of w')) = AppState.category (st (ui_of w)) /\
  pending w' = pending w /\ sent w' = sent w.
Proof.
  intros Hc Ht Hs. unfold step in Hs. rewrite Hc in Hs. simpl in Hs. inv_some Hs.
  assert (Hp : panel_of t = None /\ has_contact_form t = false)
    by (destruct Ht as [-> | ->]; split; reflexivity).
  destruct Hp as [Hp Hf]. unfold rendered, set_route. rewrite Hf.
  destruct (String.eqb t _) eqn:E.
  - apply String.eqb_eq in E. destruct (_ || _); cbn [crash set_ui ui_of st pending sent];
      rewrite <- E; done.
  - by destruct (_ || _).
Qed.

Lemma reachable_cart_wf_witness :
  match exec init [EResolve 0 (answer (JArr [ring; earrings])); EAdd 0; EAdd 1; EAdd 0] with
  | Some w => cart_wf (AppState.cart (st (ui_of w)))
  | None => False
  end.
Proof.
  destruct (exec init _) as [w|] eqn:He; [|vm_compute in He; discriminate].
  apply reachable_cart_wf. exact (reachable_exec _ _ He).
Defined.

Lemma loading_implies_pending_load_witness :
  match exec init [ECollection "silver"] with
  | Some w => exists cat t, (OLoad cat, t) ∈ pending w
  | None => False
  end.
Proof.
  destruct (exec init _) as [w|] eqn:He; [|vm_compute in He; discriminate].
  pose proof (reachable_exec _ _ He) as Hr. vm_compute in He. injection He as <-.
  apply loading_implies_pending_load; [exact Hr|vm_compute; reflexivity|vm_compute; reflexivity].
Defined.

Lemma good_answers_never_crash_witness :
  match exec_good init [EResolve 0 (answer (JArr [ring; earrings])); EAdd 0;
                        ECollection "silver"; ENavigate "cart"; ECheckout;
                        EResolve 0 (answer (JArr [ring])); ENavigate "home"; EAdd 0] with
  | Some w => crashed (ui_of w) = false /\ render_ok (ui_of w) = true
  | None => False
  end.
Proof.
  destruct (exec_good init _) as [w|] eqn:He; [|vm_compute in He; discriminate].
  apply good_answers_never_crash. exact (reachable_good_exec _ _ He).
Defined.

Lemma form_sending_tracks_inquiry_witness :
  match exec init [EType Name "Asha"; EType Email "a@x.in"; EType Message "Hi"; ESubmit;
                   EType Message "Hi, and one more thing"] with
  | Some w =>
      match form_state (ui_of w) with
      | Some cs => count (submit_of (form_gen (ui_of w))) (pending w) = if sending cs then 1%nat else 0%nat
      | None => False
      end
  | None => False
  end.
Proof.
  destruct (exec init _) as [w|] eqn:He; [|vm_compute in He; discriminate].
  pose proof (reachable_exec _ _ He) as Hr. vm_compute in He. injection He as <-.
  apply (form_sending_tracks_inquiry _ Hr); vm_compute; reflexivity.
Defined.

Lemma navbar_category_blank_witness :
  match step init (ENavigate "silver") with
  | Some w' =>
      panel_of (AppState.route (st (ui_of w'))) = None /\
      AppState.category (st (ui_of w')) = AppState.category (st (ui_of init)) /\
      pending w' = pending init /\ sent w' = sent init
  | None => False
  end.
Proof.
  destruct (step init _) as [w'|] eqn:Hs; [|vm_compute in Hs; discriminate].
  apply (navbar_category_blank init w' "silver"); [reflexivity|by left|exact Hs].
Defined.

Lemma error_answer_unmounts_app_witness :
  match step init (EResolve 0 (Responded (mk_response false
                                 (Ok (JObj [("detail", JStr "Internal error")]))))) with
  | Some w' => crashed (ui_of w') = true
  | None => False
  end.
Proof.
  destruct (step init _) as [w'|] eqn:Hs; [|vm_compute in Hs; discriminate].
  apply (error_answer_unmounts_app init w' 0 None (Await (products_req None) load_settled)
           false [("detail", JStr "Internal error")]); [constructor|reflexivity|reflexivity|left; reflexivity|exact Hs].
Defined.

End App.
